(** * AS2 message disposition notifications: header codec and report pipelines

    A shallow embedding of [src/AS2Disposition/AS2Disposition.ts]:
    the field decoder [toNotification], the [AS2Disposition] constructor,
    [toMimeNode], and the asynchronous pipelines [outgoing] and [incoming].

    Strings.  An ECMAScript string is a sequence of UTF-16 code units.  MDN
    header text is ASCII, and the model carries the code units 0..255 (the
    Latin-1 block) in Stdlib's 8-bit [ascii].  On that block [trim] and
    [toLowerCase] below are exactly the ECMAScript functions.
    [toUpperCase] is exact except at U+00B5, U+00DF and U+00FF, whose upper
    case lies outside the block; the decoder applies it only to the letters
    of the recognised, ASCII, field names. *)

From Stdlib Require Import ZArith Ascii String List Bool Lia.
From stdpp Require Import base option list strings gmap.

Local Open Scope string_scope.
Local Open Scope Z_scope.

(** ** ECMAScript string primitives *)

Module JsString.

Definition code (c : ascii) : N := N_of_ascii c.

(** WhiteSpace and LineTerminator code points below 256:
    TAB, LF, VT, FF, CR, SP and NBSP. *)
Definition isWhiteSpace (c : ascii) : bool :=
  let n := code c in
  ((9 <=? n)%N && (n <=? 13)%N) || (n =? 32)%N || (n =? 160)%N.

Definition charToLower (c : ascii) : ascii :=
  let n := code c in
  if ((65 <=? n)%N && (n <=? 90)%N)
     || ((192 <=? n)%N && (n <=? 222)%N && negb (n =? 215)%N)
  then ascii_of_N (n + 32) else c.

Definition charToUpper (c : ascii) : ascii :=
  let n := code c in
  if ((97 <=? n)%N && (n <=? 122)%N)
     || ((224 <=? n)%N && (n <=? 254)%N && negb (n =? 247)%N)
  then ascii_of_N (n - 32) else c.

(** [String.prototype.toLowerCase] / [toUpperCase]. *)
Fixpoint toLowerCase (s : string) : string :=
  match s with
  | EmptyString => EmptyString
  | String c r => String (charToLower c) (toLowerCase r)
  end.

Fixpoint toUpperCase (s : string) : string :=
  match s with
  | EmptyString => EmptyString
  | String c r => String (charToUpper c) (toUpperCase r)
  end.

Fixpoint trimStart (s : string) : string :=
  match s with
  | EmptyString => EmptyString
  | String c r => if isWhiteSpace c then trimStart r else s
  end.

Fixpoint trimEnd (s : string) : string :=
  match s with
  | EmptyString => EmptyString
  | String c r =>
      match trimEnd r with
      | EmptyString => if isWhiteSpace c then EmptyString else String c EmptyString
      | t => String c t
      end
  end.

(** [String.prototype.trim]. *)
Definition trim (s : string) : string := trimEnd (trimStart s).

(** [s.split(sep)] for a one-character separator (also the regular
    expression [/;/gu]): never the empty array, [""] splits to [[""]]. *)
Fixpoint split (sep : ascii) (s : string) : list string :=
  match s with
  | EmptyString => [EmptyString]
  | String c r =>
      if Ascii.eqb c sep then EmptyString :: split sep r
      else match split sep r with
           | p :: ps => String c p :: ps
           | [] => [String c EmptyString]
           end
  end.

(** [Array.prototype.join]. *)
Fixpoint join (sep : string) (l : list string) : string :=
  match l with
  | [] => EmptyString
  | [x] => x
  | x :: r => x +:+ sep +:+ join sep r
  end.

Fixpoint indexOfFrom (c : ascii) (s : string) (i : Z) : Z :=
  match s with
  | EmptyString => -1
  | String d r => if Ascii.eqb d c then i else indexOfFrom c r (i + 1)
  end.

(** [s.indexOf(c)] for a one-character needle: -1 when absent. *)
Definition indexOf (s : string) (c : ascii) : Z := indexOfFrom c s 0.

Definition strlen (s : string) : Z := Z.of_nat (String.length s).

Fixpoint dropChars (n : nat) (s : string) : string :=
  match n, s with
  | O, _ => s
  | S _, EmptyString => EmptyString
  | S m, String _ r => dropChars m r
  end.

Fixpoint takeChars (n : nat) (s : string) : string :=
  match n, s with
  | O, _ => EmptyString
  | S _, EmptyString => EmptyString
  | S m, String c r => String c (takeChars m r)
  end.

(** Relative index of [slice]: negative counts from the end, then clamp. *)
Definition clampIndex (len i : Z) : Z :=
  if i <? 0 then Z.max (len + i) 0 else Z.min i len.

(** [s.slice(start, end)]; [None] is an omitted [end]. *)
Definition slice (s : string) (start : Z) (stop : option Z) : string :=
  let len := strlen s in
  let from := clampIndex len start in
  let to := match stop with Some e => clampIndex len e | None => len end in
  takeChars (Z.to_nat (to - from)) (dropChars (Z.to_nat from) s).

(** [s.substring(start)] with [end] omitted: a negative [start] is 0. *)
Definition substring (s : string) (start : Z) : string :=
  dropChars (Z.to_nat (Z.min (Z.max start 0) (strlen s))) s.

(** [s.charAt(i)]: the empty string out of range. *)
Definition charAt (s : string) (i : Z) : string :=
  if (i <? 0) || (strlen s <=? i) then EmptyString
  else takeChars 1 (dropChars (Z.to_nat i) s).

Fixpoint startsWith (s prefix : string) : bool :=
  match prefix, s with
  | EmptyString, _ => true
  | String _ _, EmptyString => false
  | String p pr, String c r => Ascii.eqb c p && startsWith r pr
  end.

Definition contains (c : ascii) (s : string) : Prop := In c (list_ascii_of_string s).

Definition allWhiteSpace (s : string) : Prop :=
  Forall (fun c => isWhiteSpace c = true) (list_ascii_of_string s).

End JsString.

Import JsString.

(** ** The field decoder [toNotification] *)

(** A thrown ECMAScript exception: [new Error(message)] or the engine's
    [TypeError] for a property read on [undefined]. *)
Inductive JsError : Type :=
  | Error (message : string)
  | TypeError (message : string).

Definition errorMessage (e : JsError) : string :=
  match e with Error m | TypeError m => m end.

(** Result of a call that may throw (for an [async] function: a promise
    that resolves or rejects). *)
Inductive outcome (A : Type) : Type :=
  | Return (a : A)
  | Throw (e : JsError).
Arguments Return {A} a.
Arguments Throw {A} e.

(** A value of the [attributes] object: [value || true]. *)
Inductive AttributeValue : Type :=
  | AttrTrue
  | AttrText (s : string).

Record Description : Type := mkDescription {
  descriptionType : string;
  descriptionText : string
}.

(** The object built in the ['disposition'] case; [None] is a property
    that was never assigned ([undefined]). *)
Record Disposition : Type := mkDisposition {
  dispValue : option string;
  dispType : option string;
  processed : option bool;
  description : option Description;
  attributes : option (gmap string AttributeValue)
}.

(** The second component of the pair [toNotification] returns. *)
Inductive FieldValue : Type :=
  | FText (value : string)
  | FRecipient (value type : string)
  | FDisposition (d : Disposition)
  | FMic (mic algorithm : string)
  | FHeaders (bucket : gmap string string).

(** Property names every object literal inherits from [Object.prototype]. *)
Definition objectPrototypeKeys : list string :=
  [ "constructor"; "__proto__"; "hasOwnProperty"; "isPrototypeOf";
    "propertyIsEnumerable"; "toLocaleString"; "toString"; "valueOf";
    "__defineGetter__"; "__defineSetter__"; "__lookupGetter__";
    "__lookupSetter__" ].

Definition inherited (key : string) : bool :=
  existsb (String.eqb key) objectPrototypeKeys.

(** [obj[key] === undefined] for an object literal with own properties
    [obj]: the read falls back to [Object.prototype]. *)
Definition readsUndefined {V} (obj : gmap string V) (key : string) : bool :=
  match obj !! key with
  | Some _ => false
  | None => negb (inherited key)
  end.

(** [value || true]: the empty string is falsy. *)
Definition orTrue (value : string) : AttributeValue :=
  if String.eqb value "" then AttrTrue else AttrText value.

(** The arrow function [newKey]. *)
Definition capitalize (index : nat) (chars : string) : string :=
  match index with
  | O => toLowerCase chars
  | S _ => toUpperCase (charAt chars 0) +:+ substring (toLowerCase chars) 1
  end.

Definition newKey (str : string) : string :=
  join "" (imap capitalize (split "-" (toLowerCase str))).

(** The loop body of the ['disposition'] case once [key] and [value] are
    computed: the [processed]/[failed] branch ending in [continue], else
    the [attributes] branch. *)
Definition recordModifier (result : Disposition) (key value : string) : Disposition :=
  if startsWith key "processed" || startsWith key "failed" then
    let pieces := split "/" key in
    let attrKey := pieces !! 0%nat in
    let attrProp := pieces !! 1%nat in
    let result :=
      mkDisposition (dispValue result) (dispType result)
        (Some (bool_decide (attrKey = Some "processed")))
        (description result) (attributes result) in
    match attrProp with
    | Some prop =>
        mkDisposition (dispValue result) (dispType result) (processed result)
          (Some (mkDescription (toLowerCase prop) value)) (attributes result)
    | None => result
    end
  else
    let attrs := default ∅ (attributes result) in
    let attrs :=
      if readsUndefined attrs key then <[key := orTrue value]> attrs else attrs in
    mkDisposition (dispValue result) (dispType result) (processed result)
      (description result) (Some attrs).

(** One iteration of [for (const part of parts.slice(1))]. *)
Definition dispositionPart (result : Disposition) (part : string) : Disposition :=
  let index := indexOf part "=" in
  let index := if index =? -1 then strlen part else index in
  let key := toLowerCase (trim (slice part 0 (Some index))) in
  let value := trim (slice part (index + 1) None) in
  recordModifier result key value.

(** The ['disposition'] case up to [key = newKey(key)]. *)
Definition decodeDisposition (parts : list string) : Disposition :=
  let pieces := split "/" (default "" (parts !! 0%nat)) in
  let type := pieces !! 0%nat in
  let action := pieces !! 1%nat in
  fold_left dispositionPart (List.skipn 1 parts)
    (mkDisposition action type None None None).

(** The [default] case: [result[key] = value] on a fresh object literal.
    Assigning a string to [__proto__] runs the inherited setter, which
    ignores it. *)
Definition headerBucket (key value : string) : gmap string string :=
  if String.eqb key "__proto__" then ∅ else {[ key := value ]}.

Definition toNotification (key value : string) : outcome (string * FieldValue) :=
  let parts := map trim (split ";" value) in
  let lower := toLowerCase key in
  if existsb (String.eqb lower) ["reporting-ua"; "mdn-gateway"; "original-message-id"] then
    Return (newKey key, FText value)
  else if existsb (String.eqb lower) ["original-recipient"; "final-recipient"] then
    Return (newKey key,
            FRecipient (join "; " (List.skipn 1 parts)) (default "" (parts !! 0%nat)))
  else if String.eqb lower "disposition" then
    Return (newKey key, FDisposition (decodeDisposition parts))
  else if String.eqb lower "received-content-mic" then
    let pieces := map trim (split "," value) in
    let micValue := pieces !! 0%nat in
    let micalg := pieces !! 1%nat in
    match micalg with
    | None => Throw (TypeError "Cannot read properties of undefined (reading 'toLowerCase')")
    | Some alg => Return (newKey key, FMic (default "" micValue) (toLowerCase alg))
    end
  else
    Return ("headers", FHeaders (headerBucket key value)).

(** The own properties of [result.attributes]; none while it is [undefined]. *)
Definition ownAttributes (result : Disposition) : gmap string AttributeValue :=
  default ∅ (attributes result).

(** The seven field names with a case of their own in the [switch]. *)
Definition recognised (key : string) : bool :=
  existsb (String.eqb (toLowerCase key))
    [ "reporting-ua"; "mdn-gateway"; "original-message-id"; "original-recipient";
      "final-recipient"; "disposition"; "received-content-mic" ].

(** ** Asynchronous calls and their effects *)

(** Constants of [src/Constants] read by the class. *)
Record ExplanationTexts : Type := {
  SUCCESS : string;
  FAILED_DECRYPTION : string;
  FAILED_VERIFICATION : string;
  FAILED_GENERALLY : string
}.

Record ErrorTexts : Type := {
  DISPOSITION_NODE : string;
  FINAL_RECIPIENT_MISSING : string;
  CONTENT_VERIFY : string
}.

Inductive NotificationType : Type := Incoming | Outgoing.

(** The object literal typed [AS2DispositionNotification] in [outgoing]. *)
Record NotificationLiteral : Type := mkNotificationLiteral {
  finalRecipient : option string;
  disposition : Disposition
}.

(** Options bag of the [AS2MimeNode] constructor, as [toMimeNode] uses it. *)
Record MimeNodeOptions : Type := mkMimeNodeOptions {
  contentType : option string;
  optMessageId : option string;
  optContent : option string
}.

(** What the class takes from the modules it imports: [AS2MimeNode] and
    its methods, the crypto options, [AS2DispositionNotification],
    [Helpers] and [Constants]. *)
Class Collaborators : Type := {
  Node : Type;
  SigningOptions : Type;
  VerificationOptions : Type;
  DecryptionOptions : Type;
  ParsedHeaders : Type;
  Notification : Type;
  EXPLANATION : ExplanationTexts;
  ERROR : ErrorTexts;
  (* AS2MimeNode *)
  newAS2MimeNode : MimeNodeOptions -> Node;
  appendChild : Node -> Node -> Node;
  nodeMessageId : Node -> option string;
  getHeader : Node -> string -> option string;
  childNodes : Node -> list Node;
  content : Node -> option string;
  messageIdNumber : nat -> string;
  decryptResult : Node -> DecryptionOptions -> outcome Node;
  verifyResult : Node -> VerificationOptions -> outcome (option Node);
  signResult : Node -> SigningOptions -> outcome Node;
  (* Helpers *)
  getReportNode : Node -> option Node;
  parseHeaderString :
    string -> (string -> string -> outcome (string * FieldValue)) -> outcome ParsedHeaders;
  (* AS2DispositionNotification *)
  notificationOfLiteral : NotificationLiteral -> NotificationType -> Notification;
  notificationOfHeaders : ParsedHeaders -> NotificationType -> Notification;
  notificationToString : Notification -> string
}.

Section AS2Disposition.

Context `{C : Collaborators}.

(** Calls that leave the class and act on the outside world. *)
Inductive Effect : Type :=
  | CallDecrypt (node : Node) (options : DecryptionOptions)
  | CallVerify (node : Node) (options : VerificationOptions)
  | CallSign (node : Node) (options : SigningOptions)
  | GenerateMessageId.

(** A computation reads the calls made so far, extends them, and returns
    or throws. *)
Definition Async (A : Type) : Type := list Effect -> list Effect * outcome A.

Definition ret {A} (a : A) : Async A := fun w => (w, Return a).
Definition throw {A} (e : JsError) : Async A := fun w => (w, Throw e).
Definition bind {A B} (m : Async A) (k : A -> Async B) : Async B :=
  fun w => match m w with
           | (w', Return a) => k a w'
           | (w', Throw e) => (w', Throw e)
           end.
(** [try { m } catch (error) { handler }]. *)
Definition tryCatch {A} (m : Async A) (handler : JsError -> Async A) : Async A :=
  fun w => match m w with
           | (w', Return a) => (w', Return a)
           | (w', Throw e) => handler e w'
           end.
Definition lift {A} (o : outcome A) : Async A := fun w => (w, o).
Definition perform {A} (e : Effect) (o : outcome A) : Async A :=
  fun w => ((w ++ [e])%list, o).

Notation "'let!' x ':=' m 'in' k" := (bind m (fun x => k))
  (at level 10, x name, m at level 100, k at level 200).

(** [AS2MimeNode.generateMessageId()]: the n-th identifier drawn. *)
Definition generateMessageId : Async string :=
  fun w =>
    let drawn := List.length (List.filter
                   (fun e => match e with GenerateMessageId => true | _ => false end) w) in
    ((w ++ [GenerateMessageId])%list, Return (messageIdNumber drawn)).

(** [rootNode.decrypt(options)], [rootNode.verify(options)] and
    [node.sign(options)]; a method call on [undefined] is a [TypeError]. *)
Definition decrypt (rootNode : option Node) (options : DecryptionOptions) : Async Node :=
  match rootNode with
  | Some n => perform (CallDecrypt n options) (decryptResult n options)
  | None => throw (TypeError "Cannot read properties of undefined (reading 'decrypt')")
  end.

Definition verify (rootNode : option Node) (options : VerificationOptions)
  : Async (option Node) :=
  match rootNode with
  | Some n => perform (CallVerify n options) (verifyResult n options)
  | None => throw (TypeError "Cannot read properties of undefined (reading 'verify')")
  end.

Definition sign (node : Node) (options : SigningOptions) : Async Node :=
  perform (CallSign node options) (signResult node options).

(** *** The class *)

Record AS2DispositionOptions : Type := mkAS2DispositionOptions {
  optExplanation : option string;
  optNotification : option (Notification + NotificationLiteral);
  optReturned : option (Node + bool)
}.

(** The constructor's parameter [mdn?: AS2MimeNode | AS2DispositionOptions]. *)
Inductive ConstructorArgument : Type :=
  | ArgUndefined
  | ArgNode (mdn : Node)
  | ArgOptions (mdn : AS2DispositionOptions).

Record AS2Disposition : Type := mkAS2Disposition {
  messageId : option string;
  explanation : option string;
  notification : option Notification;
  returned : option Node
}.

(** [mdn.childNodes[i].content.toString('utf8')]. *)
Definition childContent (mdn : Node) (i : nat) : outcome string :=
  match childNodes mdn !! i with
  | None => Throw (TypeError "Cannot read properties of undefined (reading 'content')")
  | Some child =>
      match content child with
      | None => Throw (TypeError "Cannot read properties of undefined (reading 'toString')")
      | Some text => Return text
      end
  end.

Definition argumentError : JsError :=
  Error ("Argument must be either options to construct a disposition report, "
         +:+ "or a disposition report as an AS2MimeNode").

(** [new AS2Disposition(mdn)]. *)
Definition newAS2Disposition (mdn : ConstructorArgument) : Async AS2Disposition :=
  match mdn with
  | ArgNode mdn =>
      let messageId := nodeMessageId mdn in
      match getReportNode mdn with
      | Some mdn =>
          let! text0 := lift (childContent mdn 0) in
          let! text1 := lift (childContent mdn 1) in
          let! parsed := lift (parseHeaderString text1 toNotification) in
          ret (mkAS2Disposition messageId (Some (trim text0))
                 (Some (notificationOfHeaders parsed Incoming))
                 (childNodes mdn !! 2%nat))
      | None => ret (mkAS2Disposition None None None None)
      end
  | ArgOptions mdn =>
      match optExplanation mdn, optNotification mdn with
      | Some text, Some n =>
          if String.eqb text "" then throw argumentError
          else
            let notification :=
              match n with
              | inl instance => instance
              | inr literal => notificationOfLiteral literal Outgoing
              end in
            let returned :=
              match optReturned mdn with
              | Some (inl node) => Some node
              | Some (inr _) | None => None
              end in
            let! id := generateMessageId in
            ret (mkAS2Disposition (Some id) (Some text) (Some notification) returned)
      | _, _ => throw argumentError
      end
  | ArgUndefined =>
      throw (TypeError "Cannot read properties of undefined (reading 'explanation')")
  end.

Definition toMimeNode (this : AS2Disposition) : outcome Node :=
  let rootNode :=
    newAS2MimeNode
      (mkMimeNodeOptions (Some "multipart/report; report-type=disposition-notification")
         (messageId this) None) in
  let rootNode :=
    appendChild rootNode
      (newAS2MimeNode (mkMimeNodeOptions (Some "text/plain") None (explanation this))) in
  match notification this with
  | None => Throw (TypeError "Cannot read properties of undefined (reading 'toString')")
  | Some n =>
      let rootNode :=
        appendChild rootNode
          (newAS2MimeNode
             (mkMimeNodeOptions (Some "message/disposition-notification") None
                (Some (notificationToString n)))) in
      Return (match returned this with
              | Some node => appendChild rootNode node
              | None => rootNode
              end)
  end.

Record OutgoingDispositionOptions : Type := mkOutgoingDispositionOptions {
  node : option Node;
  returnNode : bool;
  signDisposition : option SigningOptions;
  signed : option VerificationOptions;
  encrypted : option DecryptionOptions
}.

(** The mutable locals of [outgoing]. *)
Record Locals : Type := mkLocals {
  localNotification : NotificationLiteral;
  localExplanation : string;
  rootNode : option Node;
  errored : bool
}.

Definition setRootNode (l : Locals) (n : option Node) : Locals :=
  mkLocals (localNotification l) (localExplanation l) n (errored l).

(** The assignments shared by the two [catch] blocks and the
    inconclusive-verification block: [errored = true],
    [disposition.processed = false],
    [disposition.description = {type: 'failure', text}] and the new
    [explanation]. *)
Definition recordFailure (l : Locals) (text explanation : string) : Locals :=
  let n := localNotification l in
  let d := disposition n in
  mkLocals
    (mkNotificationLiteral (finalRecipient n)
       (mkDisposition (dispValue d) (dispType d) (Some false)
          (Some (mkDescription "failure" text)) (attributes d)))
    explanation (rootNode l) true.

Definition isNullOrUndefined {A} (x : option A) : bool :=
  match x with None => true | Some _ => false end.

Definition decryptStep (options : OutgoingDispositionOptions) (l : Locals) : Async Locals :=
  match encrypted options with
  | Some enc =>
      tryCatch
        (let! n := decrypt (rootNode l) enc in ret (setRootNode l (Some n)))
        (fun error => ret (recordFailure l (errorMessage error) (FAILED_DECRYPTION EXPLANATION)))
  | None => ret l
  end.

Definition verifyStep (options : OutgoingDispositionOptions) (l : Locals) : Async Locals :=
  match signed options with
  | Some sgn =>
      if negb (errored l) then
        let! l :=
          tryCatch
            (let! n := verify (rootNode l) sgn in ret (setRootNode l n))
            (fun error =>
               ret (recordFailure l (errorMessage error) (FAILED_GENERALLY EXPLANATION))) in
        ret (if isNullOrUndefined (rootNode l) && negb (errored l)
             then recordFailure l "Could not verify signature" (FAILED_VERIFICATION EXPLANATION)
             else l)
      else ret l
  | None => ret l
  end.

(** The [AS2Disposition] that [outgoing] builds before serialising it. *)
Definition outgoingReport (options : OutgoingDispositionOptions) : Async AS2Disposition :=
  match node options with
  | None => throw (Error (DISPOSITION_NODE ERROR))
  | Some n =>
      let l :=
        mkLocals
          (mkNotificationLiteral (getHeader n "As2-To")
             (mkDisposition None (Some "automatic-action") (Some true) None None))
          (SUCCESS EXPLANATION) (Some n) false in
      if isNullOrUndefined (finalRecipient (localNotification l)) then
        throw (Error (FINAL_RECIPIENT_MISSING ERROR))
      else
        let! l := decryptStep options l in
        let! l := verifyStep options l in
        newAS2Disposition
          (ArgOptions
             (mkAS2DispositionOptions (Some (localExplanation l))
                (Some (inr (localNotification l)))
                (if returnNode options then Some (inl n) else None)))
  end.

(** The end of [outgoing]: serialise the report, signing it when
    [signDisposition] is given. *)
Definition finishOutgoing (options : OutgoingDispositionOptions) (mdn : AS2Disposition)
  : Async Node :=
  match signDisposition options with
  | Some sgn => let! mime := lift (toMimeNode mdn) in sign mime sgn
  | None => lift (toMimeNode mdn)
  end.

(** [AS2Disposition.outgoing]. *)
Definition outgoing (options : OutgoingDispositionOptions) : Async Node :=
  let! mdn := outgoingReport options in
  finishOutgoing options mdn.

(** [AS2Disposition.incoming]. *)
Definition incoming (node : option Node) (signed : option VerificationOptions)
  : Async AS2Disposition :=
  match node with
  | None => throw (Error (DISPOSITION_NODE ERROR))
  | Some n =>
      let! rootNode :=
        match signed with
        | Some sgn =>
            let! verified := verify (Some n) sgn in
            match verified with
            | None => throw (Error (CONTENT_VERIFY ERROR))
            | Some inner => ret inner
            end
        | None => ret n
        end in
      newAS2Disposition (ArgNode rootNode)
  end.

End AS2Disposition.

(** ** A small instance of the collaborators

    MIME nodes as trees of headers, body and children; keys that either
    fit or do not; a line-by-line header parser.  Used to run the class on
    concrete messages. *)

Module Sample.

#[local] Unset Elimination Schemes.
Inductive MimeTree : Type :=
  | Mime (headers : list (string * string)) (body : option string)
         (children : list MimeTree).
#[local] Set Elimination Schemes.

Inductive Key : Type := RightKey | WrongKey | BrokenKey.

Definition headersOf (t : MimeTree) := match t with Mime h _ _ => h end.
Definition bodyOf (t : MimeTree) := match t with Mime _ b _ => b end.
Definition childrenOf (t : MimeTree) := match t with Mime _ _ c => c end.

Fixpoint header (name : string) (h : list (string * string)) : option string :=
  match h with
  | [] => None
  | (k, v) :: r => if String.eqb k name then Some v else header name r
  end.

Definition optionalHeader (name : string) (v : option string) : list (string * string) :=
  match v with Some text => [(name, text)] | None => [] end.

Definition isReport (t : MimeTree) : bool :=
  match header "Content-Type" (headersOf t) with
  | Some ct => startsWith ct "multipart/report"
  | None => false
  end.

Fixpoint findReport (t : MimeTree) : option MimeTree :=
  if isReport t then Some t
  else
    match t with
    | Mime _ _ children =>
        (fix search (l : list MimeTree) : option MimeTree :=
           match l with
           | [] => None
           | c :: r => match findReport c with Some found => Some found | None => search r end
           end) children
    end.

Fixpoint parseLines (lines : list string)
    (callback : string -> string -> outcome (string * FieldValue))
  : outcome (list (string * FieldValue)) :=
  match lines with
  | [] => Return []
  | line :: rest =>
      let index := indexOf line ":" in
      match callback (trim (slice line 0 (Some index))) (trim (slice line (index + 1) None)) with
      | Throw e => Throw e
      | Return field =>
          match parseLines rest callback with
          | Throw e => Throw e
          | Return fields => Return (field :: fields)
          end
      end
  end.

Definition collaborators : Collaborators := {|
  Node := MimeTree;
  SigningOptions := Key;
  VerificationOptions := Key;
  DecryptionOptions := Key;
  ParsedHeaders := list (string * FieldValue);
  Notification := NotificationLiteral + list (string * FieldValue);
  EXPLANATION := {|
    SUCCESS := "The message was received and processed.";
    FAILED_DECRYPTION := "The message could not be decrypted.";
    FAILED_VERIFICATION := "The message could not be verified.";
    FAILED_GENERALLY := "The message could not be processed."
  |};
  ERROR := {|
    DISPOSITION_NODE := "A mime node is required to produce a disposition.";
    FINAL_RECIPIENT_MISSING := "The AS2-To header is missing.";
    CONTENT_VERIFY := "The content could not be verified."
  |};
  newAS2MimeNode := fun o =>
    Mime (optionalHeader "Content-Type" (contentType o)
            ++ optionalHeader "Message-ID" (optMessageId o))%list
         (optContent o) [];
  appendChild := fun parent child =>
    match parent with Mime h b c => Mime h b (c ++ [child])%list end;
  nodeMessageId := fun t => header "Message-ID" (headersOf t);
  getHeader := fun t name => header name (headersOf t);
  childNodes := childrenOf;
  content := bodyOf;
  messageIdNumber := fun n => "<mdn-" +:+ String (ascii_of_nat (48 + n)) "@sample>";
  decryptResult := fun t k =>
    match k, childrenOf t with
    | RightKey, inner :: _ => Return inner
    | _, _ => Throw (Error "Unable to decrypt with the given key")
    end;
  verifyResult := fun t k =>
    match k with
    | RightKey => Return (List.head (childrenOf t))
    | WrongKey => Return None
    | BrokenKey => Throw (Error "Malformed signature")
    end;
  signResult := fun t k =>
    match k with
    | BrokenKey => Throw (Error "Unable to sign with the given key")
    | _ => Return (Mime [("Content-Type", "multipart/signed")] None [t])
    end;
  getReportNode := findReport;
  parseHeaderString := fun text callback =>
    parseLines (split "010" text) callback;
  notificationOfLiteral := fun literal _ => inl literal;
  notificationOfHeaders := fun parsed _ => inr parsed;
  notificationToString := fun n =>
    match n with
    | inl literal => "Final-Recipient: " +:+ default "" (finalRecipient literal)
    | inr _ => ""
    end
|}.

(** A business message addressed to [partner], as an encrypted envelope
    around a signed body. *)
Definition payload : MimeTree :=
  Mime [("Content-Type", "application/edi-x12")] (Some "ISA*00*") [].
Definition message : MimeTree :=
  Mime [("As2-To", "partner"); ("Content-Type", "application/pkcs7-mime")] None
    [Mime [("Content-Type", "multipart/signed")] None [payload]].
Definition anonymous : MimeTree :=
  Mime [("Content-Type", "application/pkcs7-mime")] None [payload].

(** A [multipart/report] with only its first part. *)
Definition truncatedReport : MimeTree :=
  Mime [("Content-Type", "multipart/report; report-type=disposition-notification")] None
    [Mime [("Content-Type", "text/plain")] (Some "Received.") []].

(** Calls of [outgoing] on [message]: with a key that does not decrypt,
    and with a fitting key but a signature that cannot be parsed or
    checked. *)
Definition undecryptable : OutgoingDispositionOptions (C := collaborators) :=
  mkOutgoingDispositionOptions (C := collaborators)
    (Some message) false (Some RightKey) (Some RightKey) (Some WrongKey).
Definition malformedSignature : OutgoingDispositionOptions (C := collaborators) :=
  mkOutgoingDispositionOptions (C := collaborators)
    (Some message) true None (Some BrokenKey) (Some RightKey).
Definition unverifiable : OutgoingDispositionOptions (C := collaborators) :=
  mkOutgoingDispositionOptions (C := collaborators)
    (Some message) true None (Some WrongKey) None.
(** The key does not decrypt and the report cannot be signed either. *)
Definition unsignable : OutgoingDispositionOptions (C := collaborators) :=
  mkOutgoingDispositionOptions (C := collaborators)
    (Some message) false (Some BrokenKey) (Some RightKey) (Some WrongKey).
Definition unaddressed : OutgoingDispositionOptions (C := collaborators) :=
  mkOutgoingDispositionOptions (C := collaborators)
    (Some anonymous) false None (Some RightKey) (Some RightKey).

Definition noNotification : AS2DispositionOptions (C := collaborators) :=
  mkAS2DispositionOptions (C := collaborators) (Some "Received.") None None.

(** A complete report with the original message as third part, and the
    same report inside a signed envelope that has an identifier of its
    own. *)
Definition report : MimeTree :=
  Mime [("Content-Type", "multipart/report; report-type=disposition-notification");
        ("Message-ID", "<report@sample>")] None
    [Mime [("Content-Type", "text/plain")] (Some " Received. ") [];
     Mime [("Content-Type", "message/disposition-notification")]
       (Some ("Final-Recipient: rfc822; partner" +:+ String "010"
                "Disposition: automatic-action/MDN-sent-automatically; processed")) [];
     payload].
Definition signedReport : MimeTree :=
  Mime [("Content-Type", "multipart/signed"); ("Message-ID", "<envelope@sample>")] None
    [report].

(** Calls of [outgoing] in which nothing fails, signed with a key that
    fits and with one that does not. *)
Definition wellSigned : OutgoingDispositionOptions (C := collaborators) :=
  mkOutgoingDispositionOptions (C := collaborators)
    (Some message) true (Some RightKey) (Some RightKey) (Some RightKey).
Definition signingFails : OutgoingDispositionOptions (C := collaborators) :=
  mkOutgoingDispositionOptions (C := collaborators)
    (Some message) false (Some BrokenKey) None None.

End Sample.

(** ** Views of the loop of the ['disposition'] case *)

(** The [key] and the [value] that one iteration computes from [part]. *)
Definition modifierKey (part : string) : string :=
  let index := indexOf part "=" in
  let index := if index =? -1 then strlen part else index in
  toLowerCase (trim (slice part 0 (Some index))).

Definition modifierValue (part : string) : string :=
  let index := indexOf part "=" in
  let index := if index =? -1 then strlen part else index in
  trim (slice part (index + 1) None).

(** The test [key.startsWith('processed') || key.startsWith('failed')]. *)
Definition isStatusKey (key : string) : bool :=
  startsWith key "processed" || startsWith key "failed".

(** What holds of every entry the loop stores in [attributes]. *)
Definition attributeEntryOk (name : string) (v : AttributeValue) : Prop :=
  isStatusKey name = false
  /\ inherited name = false
  /\ toLowerCase name = name
  /\ v <> AttrText "".

(** ** [normalizeLineBreaks] of [test/helpers.ts] *)

Module TestHelpers.

Definition CR : ascii := "013".
Definition LF : ascii := "010".
Definition CRLF : string := String CR (String LF EmptyString).

(** [s.split(sep)] for a separator string that is not empty; [skip] counts
    the characters of a separator just matched that are still to be
    passed over. *)
Fixpoint splitFrom (sep : string) (skip : nat) (s : string) : list string :=
  match s with
  | EmptyString => [EmptyString]
  | String c r =>
      match skip with
      | S k => splitFrom sep k r
      | O =>
          if startsWith s sep
          then EmptyString :: splitFrom sep (String.length sep - 1) r
          else match splitFrom sep 0 r with
               | p :: ps => String c p :: ps
               | [] => [String c EmptyString]
               end
      end
  end.

Definition splitString (s sep : string) : list string := splitFrom sep 0 s.

(** [s.endsWith(suffix)]. *)
Definition endsWith (s suffix : string) : bool :=
  (String.length suffix <=? String.length s)%nat
  && String.eqb (dropChars (String.length s - String.length suffix) s) suffix.

(** [s.substring(start, end)]: both indices clamped to [0, length], the
    smaller one first. *)
Definition substringRange (s : string) (start stop : Z) : string :=
  let len := strlen s in
  let a := Z.min (Z.max start 0) len in
  let b := Z.min (Z.max stop 0) len in
  let from := Z.min a b in
  let to := Z.max a b in
  takeChars (Z.to_nat (to - from)) (dropChars (Z.to_nat from) s).

Definition normalizeLineBreaks (input : string) : string :=
  let lines := splitString input CRLF in
  let output :=
    if endsWith (default "" (lines !! 0%nat)) (String CR EmptyString)
    then map (fun line => substringRange line 0 (strlen line - 1)) lines
    else [] in
  if (0 <? Z.of_nat (List.length output)) then join CRLF output else input.

End TestHelpers.

(** ** The primitives and the decoder on literal inputs *)

Example split_ex : split ";" "a/b; processed;x=1" = ["a/b"; " processed"; "x=1"].
Proof. reflexivity. Qed.

Example split_empty_ex : split "," "" = [""] /\ split "," "a," = ["a"; ""].
Proof. split; reflexivity. Qed.

Example trim_ex : trim "  a b  " = "a b".
Proof. reflexivity. Qed.

Example slice_ex :
  slice "name=value" (4 + 1) None = "value"
  /\ slice "name=value" 0 (Some 4) = "name"
  /\ slice "name" (4 + 1) None = "".
Proof. repeat split; reflexivity. Qed.

Example newKey_ex :
  map newKey ["Reporting-UA"; "Original-Message-ID"; "Received-Content-MIC"; "Disposition"]
  = ["reportingUa"; "originalMessageId"; "receivedContentMic"; "disposition"].
Proof. reflexivity. Qed.

Example toNotification_recipient_ex :
  toNotification "Final-Recipient" "rfc822; example@example.com"
  = Return ("finalRecipient", FRecipient "example@example.com" "rfc822").
Proof. reflexivity. Qed.

Example toNotification_mic_ex :
  toNotification "Received-Content-MIC" "abcdef0123==, sha1"
  = Return ("receivedContentMic", FMic "abcdef0123==" "sha1").
Proof. reflexivity. Qed.

Example toNotification_mic_without_comma_ex :
  toNotification "Received-Content-MIC" "abcdef0123=="
  = Throw (TypeError "Cannot read properties of undefined (reading 'toLowerCase')").
Proof. reflexivity. Qed.

(** Duplicates keep the first value, a missing or blank value is [true],
    and a [failed/...] modifier sets [processed] and [description]. *)
Example toNotification_modifiers_ex :
  toNotification "Disposition"
    "automatic-action/MDN-sent-automatically; failed/Failure=bad; x=1; X=2; y; z= "
  = Return ("disposition",
            FDisposition
              {| dispValue := Some "MDN-sent-automatically";
                 dispType := Some "automatic-action";
                 processed := Some false;
                 description :=
                   Some {| descriptionType := "failure"; descriptionText := "bad" |};
                 attributes :=
                   Some (<["z" := AttrTrue]> (<["y" := AttrTrue]>
                           (<["x" := AttrText "1"]> ∅))) |}).
Proof. vm_compute. reflexivity. Qed.

(** ** Facts about the string primitives *)

Section StringFacts.

Lemma contains_cons c d s :
  contains c (String d s) <-> d = c \/ contains c s.
Proof. unfold contains. simpl. tauto. Qed.

Lemma contains_app c a b :
  contains c (a +:+ b) <-> contains c a \/ contains c b.
Proof.
  unfold contains. induction a as [|d a IH]; simpl; tauto.
Qed.

Lemma contains_decompose c s :
  contains c s -> exists a b, s = a +:+ String c b /\ ~ contains c a.
Proof.
  induction s as [|d s IH]; intros Hc.
  - destruct Hc.
  - destruct (Ascii.eqb_spec d c) as [->|Hne].
    + exists EmptyString, s. split; [reflexivity | intros []].
    + apply contains_cons in Hc as [Heq|Hc]; [contradiction|].
      destruct (IH Hc) as (a & b & -> & Ha).
      exists (String d a), b. split; [reflexivity|].
      rewrite contains_cons. tauto.
Qed.

Lemma contains_dec c s : {contains c s} + {~ contains c s}.
Proof. apply in_dec, ascii_dec. Defined.

Lemma strlen_cons c s : strlen (String c s) = strlen s + 1.
Proof. unfold strlen. simpl String.length. lia. Qed.

Lemma strlen_nonneg s : 0 <= strlen s.
Proof. unfold strlen. lia. Qed.

Lemma split_nonempty sep s : exists p ps, split sep s = p :: ps.
Proof.
  induction s as [|c s (p & ps & IH)]; simpl; eauto.
  destruct (Ascii.eqb c sep); eauto. rewrite IH. eauto.
Qed.

Lemma split_absent sep s : ~ contains sep s -> split sep s = [s].
Proof.
  induction s as [|c s IH]; intros Hn; simpl; [reflexivity|].
  rewrite contains_cons in Hn.
  destruct (Ascii.eqb_spec c sep) as [->|_]; [tauto|].
  rewrite IH by tauto. reflexivity.
Qed.

Lemma split_app sep a b :
  ~ contains sep a -> split sep (a +:+ String sep b) = a :: split sep b.
Proof.
  induction a as [|c a IH]; intros Hn; simpl.
  - rewrite Ascii.eqb_refl. reflexivity.
  - rewrite contains_cons in Hn.
    destruct (Ascii.eqb_spec c sep) as [->|_]; [tauto|].
    rewrite IH by tauto. reflexivity.
Qed.

Lemma append_empty_r s : s +:+ "" = s.
Proof.
  induction s as [|c s IH]; [reflexivity|].
  change (String c (s +:+ "") = String c s). now rewrite IH.
Qed.

Lemma indexOfFrom_absent c s i : ~ contains c s -> indexOfFrom c s i = -1.
Proof.
  revert i. induction s as [|d s IH]; intros i Hn; simpl; [reflexivity|].
  rewrite contains_cons in Hn.
  destruct (Ascii.eqb_spec d c) as [->|_]; [tauto|]. apply IH. tauto.
Qed.

Lemma indexOfFrom_app c a b i :
  ~ contains c a -> indexOfFrom c (a +:+ String c b) i = i + strlen a.
Proof.
  revert i. induction a as [|d a IH]; intros i Hn; simpl.
  - rewrite Ascii.eqb_refl. unfold strlen. simpl. lia.
  - rewrite contains_cons in Hn.
    destruct (Ascii.eqb_spec d c) as [->|_]; [tauto|].
    rewrite IH by tauto. rewrite strlen_cons. lia.
Qed.

Lemma indexOf_absent c s : ~ contains c s -> indexOf s c = -1.
Proof. apply indexOfFrom_absent. Qed.

Lemma indexOf_app c a b : ~ contains c a -> indexOf (a +:+ String c b) c = strlen a.
Proof. intros Hn. unfold indexOf. rewrite indexOfFrom_app by assumption. lia. Qed.

Lemma takeChars_app a b : takeChars (String.length a) (a +:+ b) = a.
Proof. induction a as [|c a IH]; simpl; [destruct b; reflexivity | now rewrite IH]. Qed.

Lemma takeChars_all s : takeChars (String.length s) s = s.
Proof. induction s as [|c s IH]; simpl; [reflexivity | now rewrite IH]. Qed.

Lemma dropChars_app a b : dropChars (String.length a) (a +:+ b) = b.
Proof. induction a as [|c a IH]; simpl; [reflexivity | assumption]. Qed.

Lemma dropChars_all s : dropChars (String.length s) s = EmptyString.
Proof. induction s as [|c s IH]; simpl; [reflexivity | assumption]. Qed.

Lemma length_app a b : String.length (a +:+ b) = (String.length a + String.length b)%nat.
Proof. induction a as [|c a IH]; simpl; [reflexivity | now rewrite IH]. Qed.

(** [part.slice(0, index)] and [part.slice(index + 1)] at the first
    occurrence of the separator, and at [part.length] when there is none. *)
Lemma slice_before a b : slice (a +:+ b) 0 (Some (strlen a)) = a.
Proof.
  unfold slice, clampIndex, strlen. rewrite length_app.
  replace (0 <? 0) with false by reflexivity.
  destruct (Z.ltb_spec (Z.of_nat (String.length a)) 0) as [Hlt|_]; [lia|].
  rewrite Z.min_l by lia. rewrite Z.min_l by lia.
  rewrite Z.sub_0_r, Nat2Z.id. simpl. apply takeChars_app.
Qed.

Lemma slice_after a c b : slice (a +:+ String c b) (strlen a + 1) None = b.
Proof.
  unfold slice, clampIndex, strlen. rewrite length_app. simpl String.length.
  destruct (Z.ltb_spec (Z.of_nat (String.length a) + 1) 0) as [Hlt|_]; [lia|].
  rewrite Z.min_l by lia.
  replace (Z.to_nat (Z.of_nat (String.length a) + 1)) with (S (String.length a)) by lia.
  replace (Z.to_nat _) with (String.length b) by lia.
  replace (dropChars (S (String.length a)) (a +:+ String c b)) with b.
  - apply takeChars_all.
  - clear. induction a as [|d a IH]; simpl; [reflexivity | exact IH].
Qed.

Lemma slice_whole s : slice s 0 (Some (strlen s)) = s.
Proof.
  unfold slice, clampIndex, strlen.
  replace (0 <? 0) with false by reflexivity.
  destruct (Z.ltb_spec (Z.of_nat (String.length s)) 0) as [Hlt|_]; [lia|].
  rewrite Z.min_l by lia. rewrite Z.min_l by lia.
  rewrite Z.sub_0_r, Nat2Z.id. simpl. apply takeChars_all.
Qed.

Lemma slice_past_end s : slice s (strlen s + 1) None = EmptyString.
Proof.
  unfold slice, clampIndex, strlen.
  destruct (Z.ltb_spec (Z.of_nat (String.length s) + 1) 0) as [Hlt|_]; [lia|].
  rewrite Z.min_r by lia. rewrite Z.sub_diag. reflexivity.
Qed.

Lemma trimStart_allWhiteSpace s : allWhiteSpace s -> trimStart s = EmptyString.
Proof.
  unfold allWhiteSpace. induction s as [|c s IH]; simpl; intros Hw; [reflexivity|].
  inversion Hw as [|? ? Hc Hs]; subst. rewrite Hc. auto.
Qed.

Lemma trim_allWhiteSpace s : allWhiteSpace s -> trim s = EmptyString.
Proof. intros Hw. unfold trim. now rewrite trimStart_allWhiteSpace. Qed.

End StringFacts.

(** ** The decoder, field by field *)

Section Decoder.

Lemma toNotification_disposition_case key value :
  toLowerCase key = "disposition" ->
  toNotification key value
  = Return ("disposition", FDisposition (decodeDisposition (map trim (split ";" value)))).
Proof. intros H. unfold toNotification, newKey. rewrite H. reflexivity. Qed.

Lemma toNotification_mic_case key value :
  toLowerCase key = "received-content-mic" ->
  toNotification key value
  = match map trim (split "," value) !! 1%nat with
    | None => Throw (TypeError "Cannot read properties of undefined (reading 'toLowerCase')")
    | Some alg =>
        Return ("receivedContentMic",
                FMic (default "" (map trim (split "," value) !! 0%nat)) (toLowerCase alg))
    end.
Proof. intros H. unfold toNotification, newKey. rewrite H. reflexivity. Qed.

Lemma toNotification_default_case key value :
  recognised key = false ->
  toNotification key value = Return ("headers", FHeaders (headerBucket key value)).
Proof.
  unfold recognised, toNotification. cbn [existsb]. intros H.
  repeat (apply orb_false_elim in H as [? H]).
  repeat match goal with E : String.eqb _ _ = false |- _ => rewrite E; clear E end.
  reflexivity.
Qed.

Lemma dispositionPart_bare result name :
  ~ contains "=" name ->
  dispositionPart result name = recordModifier result (toLowerCase (trim name)) "".
Proof.
  intros Hn. unfold dispositionPart.
  rewrite (indexOf_absent _ _ Hn). replace (-1 =? -1) with true by reflexivity.
  rewrite slice_whole, slice_past_end. reflexivity.
Qed.

Lemma dispositionPart_pair result name text :
  ~ contains "=" name ->
  dispositionPart result (name +:+ String "=" text)
  = recordModifier result (toLowerCase (trim name)) (trim text).
Proof.
  intros Hn. unfold dispositionPart.
  rewrite (indexOf_app _ _ _ Hn).
  destruct (Z.eqb_spec (strlen name) (-1)) as [Hlen|_].
  - pose proof (strlen_nonneg name). lia.
  - rewrite slice_before, slice_after. reflexivity.
Qed.

Lemma startsWith_failed_head key :
  startsWith key "failed" = true -> split "/" key !! 0%nat <> Some "processed".
Proof.
  destruct key as [|c key]; [discriminate|]. simpl startsWith.
  intros H. apply andb_prop in H as [Hc _]. apply Ascii.eqb_eq in Hc. subst c.
  simpl. destruct (split_nonempty "/" key) as (p & ps & ->). simpl. discriminate.
Qed.

Lemma recordModifier_status result key value :
  key = "processed" \/ startsWith key "failed" = true ->
  recordModifier result key value
  = mkDisposition (dispValue result) (dispType result)
      (Some (bool_decide (key = "processed")))
      (match split "/" key !! 1%nat with
       | Some suffix => Some (mkDescription (toLowerCase suffix) value)
       | None => description result
       end)
      (attributes result).
Proof.
  intros [->|Hf].
  - reflexivity.
  - unfold recordModifier. rewrite Hf, orb_true_r.
    pose proof (startsWith_failed_head key Hf) as Hhead.
    assert (key <> "processed") as Hne by (intros ->; discriminate).
    rewrite (bool_decide_eq_false_2 _ Hhead), (bool_decide_eq_false_2 _ Hne).
    destruct (split "/" key !! 1%nat); reflexivity.
Qed.

Lemma recordModifier_attribute result key value :
  startsWith key "processed" = false -> startsWith key "failed" = false ->
  recordModifier result key value
  = mkDisposition (dispValue result) (dispType result) (processed result)
      (description result)
      (Some (if readsUndefined (ownAttributes result) key
             then <[key := orTrue value]> (ownAttributes result)
             else ownAttributes result)).
Proof. intros Hp Hf. unfold recordModifier. rewrite Hp, Hf. reflexivity. Qed.

Lemma readsUndefined_own {V} (obj : gmap string V) key :
  readsUndefined obj key = true -> obj !! key = None.
Proof. unfold readsUndefined. destruct (obj !! key); [discriminate | reflexivity]. Qed.

(** First write wins: an attribute once stored is never replaced. *)
Lemma recordModifier_keeps result key value name v :
  ownAttributes result !! name = Some v ->
  ownAttributes (recordModifier result key value) !! name = Some v.
Proof.
  intros Hv. unfold recordModifier.
  destruct (startsWith key "processed" || startsWith key "failed").
  - destruct (split "/" key !! 1%nat); exact Hv.
  - fold (ownAttributes result). unfold ownAttributes at 1. simpl.
    destruct (readsUndefined (ownAttributes result) key) eqn:Hu; [|exact Hv].
    apply readsUndefined_own in Hu.
    rewrite lookup_insert_ne; [exact Hv | congruence].
Qed.

Lemma dispositionPart_keeps result part name v :
  ownAttributes result !! name = Some v ->
  ownAttributes (dispositionPart result part) !! name = Some v.
Proof. apply recordModifier_keeps. Qed.

Lemma fold_dispositionPart_keeps parts result name v :
  ownAttributes result !! name = Some v ->
  ownAttributes (fold_left dispositionPart parts result) !! name = Some v.
Proof.
  revert result. induction parts as [|part parts IH]; intros result Hv; simpl.
  - exact Hv.
  - apply IH, dispositionPart_keeps, Hv.
Qed.

(** A modifier that is stored for the first time is stored as
    [value || true]. *)
Lemma recordModifier_fresh result key value :
  startsWith key "processed" = false -> startsWith key "failed" = false ->
  ownAttributes result !! key = None -> inherited key = false ->
  ownAttributes (recordModifier result key value) !! key = Some (orTrue value).
Proof.
  intros Hp Hf Hown Hin. rewrite recordModifier_attribute by assumption.
  unfold ownAttributes at 1. simpl. unfold readsUndefined. rewrite Hown, Hin. simpl.
  apply lookup_insert_eq.
Qed.

(** A name read through [Object.prototype] is never stored. *)
Lemma recordModifier_inherited result key value :
  inherited key = true ->
  ownAttributes result !! key = None ->
  ownAttributes (recordModifier result key value) !! key = None.
Proof.
  intros Hin Hown. unfold recordModifier.
  destruct (startsWith key "processed" || startsWith key "failed").
  - destruct (split "/" key !! 1%nat); exact Hown.
  - fold (ownAttributes result). unfold ownAttributes at 1. simpl.
    unfold readsUndefined. rewrite Hown, Hin. exact Hown.
Qed.

Lemma orTrue_not_empty value : orTrue value <> AttrText "".
Proof.
  unfold orTrue. destruct (String.eqb_spec value "") as [->|Hne]; [discriminate|].
  congruence.
Qed.

(** No attribute is ever the empty string. *)
Lemma recordModifier_no_empty_text result key value :
  (forall name, ownAttributes result !! name <> Some (AttrText "")) ->
  forall name, ownAttributes (recordModifier result key value) !! name <> Some (AttrText "").
Proof.
  intros Hinv name. unfold recordModifier.
  destruct (startsWith key "processed" || startsWith key "failed").
  - destruct (split "/" key !! 1%nat); apply Hinv.
  - fold (ownAttributes result). unfold ownAttributes at 1. simpl.
    destruct (readsUndefined (ownAttributes result) key); [|apply Hinv].
    destruct (decide (key = name)) as [->|Hne].
    + rewrite lookup_insert_eq. intros [= H]. exact (orTrue_not_empty _ H).
    + rewrite lookup_insert_ne by assumption. apply Hinv.
Qed.

(** ["name="] with an empty or blank value is handled as ["name"]. *)
Lemma dispositionPart_empty_value result name blank :
  ~ contains "=" name -> allWhiteSpace blank ->
  dispositionPart result (name +:+ String "=" blank) = dispositionPart result name.
Proof.
  intros Hn Hw. rewrite (dispositionPart_pair _ _ _ Hn), (dispositionPart_bare _ _ Hn).
  rewrite (trim_allWhiteSpace _ Hw). reflexivity.
Qed.

End Decoder.

(** ** Properties of the decoder *)

Section DecoderProperties.

Lemma recordModifier_type result key value :
  dispType (recordModifier result key value) = dispType result
  /\ dispValue (recordModifier result key value) = dispValue result.
Proof.
  unfold recordModifier.
  destruct (startsWith key "processed" || startsWith key "failed");
    [destruct (split "/" key !! 1%nat)|]; split; reflexivity.
Qed.

Lemma fold_dispositionPart_type parts result :
  dispType (fold_left dispositionPart parts result) = dispType result
  /\ dispValue (fold_left dispositionPart parts result) = dispValue result.
Proof.
  revert result. induction parts as [|part parts IH]; intros result; simpl; [tauto|].
  destruct (IH (dispositionPart result part)) as [-> ->].
  apply recordModifier_type.
Qed.

(** C4.  Decoding a Disposition field: the first [;]-segment, trimmed and
    split on [/], gives [type] and [value], which no modifier changes;
    the remaining segments are folded in order by the loop body.  For a
    segment [name] or [name=text] whose key (the lower-cased, trimmed
    name) is ["processed"] or starts with ["failed"], the loop body sets
    [processed] to [key === "processed"], sets [description] to
    [{type: lowercase(suffix), text: value}] when the key has a second
    [/]-piece [suffix] and leaves it alone otherwise, and leaves the
    attributes alone.  The literal example decodes as the spec says. *)
Theorem disposition_field_decoding
    (key value : string) (result : Disposition) (name text : string) :
  toLowerCase key = "disposition" ->
  ~ contains "=" name ->
  toLowerCase (trim name) = "processed"
    \/ startsWith (toLowerCase (trim name)) "failed" = true ->
  let segments := split ";" value in
  let first := split "/" (trim (default "" (segments !! 0%nat))) in
  let modifier := toLowerCase (trim name) in
  let updated (text : string) :=
    {| dispValue := dispValue result;
       dispType := dispType result;
       processed := Some (bool_decide (modifier = "processed"));
       description :=
         match split "/" modifier !! 1%nat with
         | Some suffix =>
             Some {| descriptionType := toLowerCase suffix; descriptionText := text |}
         | None => description result
         end;
       attributes := attributes result |} in
  (exists d,
      toNotification key value = Return ("disposition", FDisposition d)
      /\ dispType d = first !! 0%nat
      /\ dispValue d = first !! 1%nat
      /\ d = fold_left dispositionPart (map trim (skipn 1 segments))
               {| dispValue := first !! 1%nat; dispType := first !! 0%nat;
                  processed := None; description := None; attributes := None |})
  /\ dispositionPart result name = updated ""
  /\ dispositionPart result (name +:+ "=" +:+ text) = updated (trim text)
  /\ toNotification "Disposition" "automatic-action/MDN-sent-automatically; processed"
     = Return ("disposition",
               FDisposition
                 {| dispValue := Some "MDN-sent-automatically";
                    dispType := Some "automatic-action";
                    processed := Some true;
                    description := None;
                    attributes := None |}).
Proof.
  intros Hkey Hname Hmod segments first modifier updated.
  split; [|split; [|split]].
  - eexists. split; [|split; [|split]].
    + rewrite (toNotification_disposition_case _ _ Hkey). reflexivity.
    + unfold decodeDisposition.
      rewrite (proj1 (fold_dispositionPart_type _ _)). subst first segments.
      destruct (split_nonempty ";" value) as (p & ps & ->). reflexivity.
    + unfold decodeDisposition.
      rewrite (proj2 (fold_dispositionPart_type _ _)). subst first segments.
      destruct (split_nonempty ";" value) as (p & ps & ->). reflexivity.
    + unfold decodeDisposition. subst first segments.
      destruct (split_nonempty ";" value) as (p & ps & ->). reflexivity.
  - rewrite (dispositionPart_bare _ _ Hname).
    apply recordModifier_status, Hmod.
  - change (name +:+ "=" +:+ text) with (name +:+ String "=" text).
    rewrite (dispositionPart_pair _ _ _ Hname).
    apply recordModifier_status, Hmod.
  - vm_compute. reflexivity.
Qed.

(** C7.  Decoding a Received-Content-MIC field: a value with a comma
    reads [first , second ...]; the result is
    [{mic: trim(first), algorithm: lowercase(trim(second))}] under the
    key [receivedContentMic].  A value without a comma throws (a
    [TypeError], from [micalg.toLowerCase()] on [undefined]). *)
Theorem received_content_mic_decoding (key value : string) :
  toLowerCase key = "received-content-mic" ->
  (contains "," value ->
     exists first second rest,
       value = first +:+ "," +:+ second +:+ rest
       /\ ~ contains "," first
       /\ ~ contains "," second
       /\ (rest = "" \/ exists more, rest = String "," more)
       /\ toNotification key value
          = Return ("receivedContentMic", FMic (trim first) (toLowerCase (trim second))))
  /\ (~ contains "," value ->
        exists message, toNotification key value = Throw (TypeError message)).
Proof.
  intros Hkey. rewrite (toNotification_mic_case _ _ Hkey). split.
  - intros Hc. destruct (contains_decompose _ _ Hc) as (first & tail & -> & Hfirst).
    destruct (contains_dec "," tail) as [Hc2|Hn2].
    + destruct (contains_decompose _ _ Hc2) as (second & more & -> & Hsecond).
      exists first, second, (String "," more).
      rewrite (split_app _ _ _ Hfirst), (split_app _ _ _ Hsecond).
      split; [reflexivity|]. split; [assumption|]. split; [assumption|].
      split; [right; eauto | reflexivity].
    + exists first, tail, "".
      rewrite (split_app _ _ _ Hfirst), (split_absent _ _ Hn2).
      split; [|split; [assumption|split; [assumption|split; [left|]; reflexivity]]].
      rewrite append_empty_r. reflexivity.
  - intros Hn. rewrite (split_absent _ _ Hn). simpl. eauto.
Qed.

(** C5, amended.  A field name outside the seven recognised ones, and
    other than [__proto__], is returned under the key [headers] with a
    bucket holding the raw value under the field name exactly as it was
    given: no lower-casing and no camel-casing is applied to it. *)
Theorem unrecognised_field_kept_under_given_name (key value : string) :
  recognised key = false ->
  key <> "__proto__" ->
  toNotification key value = Return ("headers", FHeaders {[ key := value ]}).
Proof.
  intros Hrec Hproto. rewrite (toNotification_default_case _ _ Hrec).
  unfold headerBucket. destruct (String.eqb_spec key "__proto__"); [contradiction|].
  reflexivity.
Qed.

(** C5 as stated fails: the bucket decoded from [X-Custom-Header] has no
    entry under the camel-cased name [xCustomHeader]. *)
Lemma unrecognised_field_not_camel_cased :
  ~ (forall key value,
       recognised key = false ->
       exists bucket,
         toNotification key value = Return ("headers", FHeaders bucket)
         /\ bucket !! newKey key = Some value).
Proof.
  intros H. destruct (H "X-Custom-Header" "abc" eq_refl) as (bucket & Hdec & Hget).
  rewrite toNotification_default_case in Hdec by reflexivity.
  injection Hdec as <-. vm_compute in Hget. discriminate.
Qed.

(** C8.  The attribute name [constructor] is read through
    [Object.prototype], so its first occurrence is not stored: the
    attributes object stays empty. *)
Theorem inherited_attribute_name_not_stored :
  toNotification "Disposition" "automatic-action/MDN-sent-automatically; constructor"
  = Return ("disposition",
            FDisposition
              {| dispValue := Some "MDN-sent-automatically";
                 dispType := Some "automatic-action";
                 processed := None;
                 description := None;
                 attributes := Some ∅ |}).
Proof. vm_compute. reflexivity. Qed.

(** C10.  The segment [constructor=] is not recorded as [true]: the
    attributes object stays empty, as for [constructor] without [=]. *)
Theorem inherited_attribute_name_with_empty_value :
  toNotification "Disposition" "automatic-action/MDN-sent-automatically; constructor= "
  = Return ("disposition",
            FDisposition
              {| dispValue := Some "MDN-sent-automatically";
                 dispType := Some "automatic-action";
                 processed := None;
                 description := None;
                 attributes := Some ∅ |}).
Proof. vm_compute. reflexivity. Qed.

End DecoderProperties.

(** ** The report pipelines *)

Section Pipelines.

Context `{C : Collaborators}.

Lemma outgoing_finish options mdn w w' :
  outgoingReport options w = (w', Return mdn) ->
  outgoing options w = finishOutgoing options mdn w'.
Proof. intros H. unfold outgoing, bind. rewrite H. reflexivity. Qed.

Lemma outgoing_report_throw options e w w' :
  outgoingReport options w = (w', Throw e) ->
  outgoing options w = (w', Throw e).
Proof. intros H. unfold outgoing, bind. rewrite H. reflexivity. Qed.

Lemma bind_return {A B} (m : Async A) (k : A -> Async B) w w' a :
  m w = (w', Return a) -> bind m k w = k a w'.
Proof. intros H. unfold bind. rewrite H. reflexivity. Qed.

(** The constructor on the options [outgoing] passes it. *)
Lemma newAS2Disposition_outgoing text literal back w :
  text <> "" ->
  exists id,
    newAS2Disposition
      (ArgOptions (mkAS2DispositionOptions (Some text) (Some (inr literal)) back)) w
    = ((w ++ [GenerateMessageId])%list,
       Return
         {| messageId := Some id;
            explanation := Some text;
            notification := Some (notificationOfLiteral literal Outgoing);
            returned := match back with Some (inl n) => Some n | _ => None end |}).
Proof.
  intros Hne. unfold newAS2Disposition. cbn [optExplanation optNotification optReturned].
  destruct (String.eqb_spec text "") as [->|_]; [contradiction|].
  unfold bind, generateMessageId, ret.
  destruct back as [[n|b]|]; eexists; reflexivity.
Qed.

Lemma decryptStep_absent options l w :
  encrypted options = None -> decryptStep options l w = (w, Return l).
Proof. intros H. unfold decryptStep. rewrite H. reflexivity. Qed.

Lemma decryptStep_return options l n enc inner w :
  encrypted options = Some enc -> rootNode l = Some n ->
  decryptResult n enc = Return inner ->
  decryptStep options l w
  = ((w ++ [CallDecrypt n enc])%list, Return (setRootNode l (Some inner))).
Proof.
  intros He Hr Hd. unfold decryptStep, tryCatch, bind, decrypt, perform.
  rewrite He, Hr, Hd. reflexivity.
Qed.

Lemma decryptStep_throw options l n enc error w :
  encrypted options = Some enc -> rootNode l = Some n ->
  decryptResult n enc = Throw error ->
  decryptStep options l w
  = ((w ++ [CallDecrypt n enc])%list,
     Return (recordFailure l (errorMessage error) (FAILED_DECRYPTION EXPLANATION))).
Proof.
  intros He Hr Hd. unfold decryptStep, tryCatch, bind, decrypt, perform.
  rewrite He, Hr, Hd. reflexivity.
Qed.

Lemma verifyStep_errored options l w :
  errored l = true -> verifyStep options l w = (w, Return l).
Proof.
  intros H. unfold verifyStep. destruct (signed options); [rewrite H|]; reflexivity.
Qed.

Lemma verifyStep_throw options l n sgn error w :
  signed options = Some sgn -> errored l = false -> rootNode l = Some n ->
  verifyResult n sgn = Throw error ->
  verifyStep options l w
  = ((w ++ [CallVerify n sgn])%list,
     Return (recordFailure l (errorMessage error) (FAILED_GENERALLY EXPLANATION))).
Proof.
  intros Hs He Hr Hv. unfold verifyStep, tryCatch, bind, verify, perform.
  rewrite Hs, He, Hr, Hv. cbn. rewrite andb_false_r. reflexivity.
Qed.

Lemma verifyStep_inconclusive options l n sgn w :
  signed options = Some sgn -> errored l = false -> rootNode l = Some n ->
  verifyResult n sgn = Return None ->
  verifyStep options l w
  = ((w ++ [CallVerify n sgn])%list,
     Return (recordFailure (setRootNode l None) "Could not verify signature"
               (FAILED_VERIFICATION EXPLANATION))).
Proof.
  intros Hs He Hr Hv. unfold verifyStep, tryCatch, bind, verify, perform.
  rewrite Hs, He, Hr, Hv. cbn. rewrite He. reflexivity.
Qed.

Lemma toMimeNode_defined mdn n :
  notification mdn = Some n -> exists mime, toMimeNode mdn = Return mime.
Proof. intros H. unfold toMimeNode. rewrite H. eauto. Qed.

(** What [outgoing] yields once the report is built. *)
Lemma finishOutgoing_result options mdn mime w :
  toMimeNode mdn = Return mime ->
  finishOutgoing options mdn w
  = match signDisposition options with
    | Some sgn => ((w ++ [CallSign mime sgn])%list, signResult mime sgn)
    | None => (w, Return mime)
    end.
Proof.
  intros H. unfold finishOutgoing, bind, lift, sign, perform. rewrite H.
  destruct (signDisposition options); [destruct (signResult mime _)|]; reflexivity.
Qed.

(** C3.  Without a node, or with a node that has no [As2-To] header,
    [outgoing] throws at once: no decrypt, verify or other outside call
    is made (the list of effects is unchanged).  The error is
    [ERROR.DISPOSITION_NODE] in the first case and
    [ERROR.FINAL_RECIPIENT_MISSING] in the second. *)
Theorem outgoing_missing_input_throws (options : OutgoingDispositionOptions)
    (w : list Effect) :
  node options = None
    \/ (exists n, node options = Some n /\ getHeader n "As2-To" = None) ->
  exists error,
    outgoing options w = (w, Throw error)
    /\ (node options = None -> error = Error (DISPOSITION_NODE ERROR))
    /\ (node options <> None -> error = Error (FINAL_RECIPIENT_MISSING ERROR)).
Proof.
  intros [Hnode | (n & Hnode & Hheader)].
  - exists (Error (DISPOSITION_NODE ERROR)). split; [|split].
    + apply outgoing_report_throw. unfold outgoingReport. rewrite Hnode. reflexivity.
    + reflexivity.
    + congruence.
  - exists (Error (FINAL_RECIPIENT_MISSING ERROR)). split; [|split].
    + apply outgoing_report_throw. unfold outgoingReport. rewrite Hnode.
      cbn [localNotification finalRecipient]. rewrite Hheader. reflexivity.
    + congruence.
    + reflexivity.
Qed.

(** C1, amended.  When the node and its [As2-To] header are present and
    the decrypt step throws (the [FAILED_DECRYPTION] text being non-empty),
    the error is caught, not thrown: [verify] is not called, whatever
    [signed] is, and the report is built with
    [explanation = FAILED_DECRYPTION], [disposition.processed = false]
    and [disposition.description = {type: "failure", text: message}].
    Without [signDisposition] the call returns that report serialised and
    does not throw; with [signDisposition] it yields whatever the final
    [sign] of the serialised report yields. *)
Theorem decrypt_failure_reported (options : OutgoingDispositionOptions)
    (n : Node) (recipient : string) (enc : DecryptionOptions) (error : JsError)
    (w : list Effect) :
  node options = Some n ->
  getHeader n "As2-To" = Some recipient ->
  encrypted options = Some enc ->
  decryptResult n enc = Throw error ->
  FAILED_DECRYPTION EXPLANATION <> "" ->
  exists mdn literal mime,
    outgoingReport options w
      = ((w ++ [CallDecrypt n enc; GenerateMessageId])%list, Return mdn)
    /\ explanation mdn = Some (FAILED_DECRYPTION EXPLANATION)
    /\ notification mdn = Some (notificationOfLiteral literal Outgoing)
    /\ finalRecipient literal = Some recipient
    /\ processed (disposition literal) = Some false
    /\ description (disposition literal)
       = Some {| descriptionType := "failure"; descriptionText := errorMessage error |}
    /\ toMimeNode mdn = Return mime
    /\ outgoing options w
       = match signDisposition options with
         | Some sgn =>
             ((w ++ [CallDecrypt n enc; GenerateMessageId; CallSign mime sgn])%list,
              signResult mime sgn)
         | None => ((w ++ [CallDecrypt n enc; GenerateMessageId])%list, Return mime)
         end
    /\ (forall n' sgn,
          In (CallVerify n' sgn) (fst (outgoing options w)) -> In (CallVerify n' sgn) w).
Proof.
  intros Hnode Hheader Henc Hdec Htext.
  set (l0 := mkLocals
               (mkNotificationLiteral (getHeader n "As2-To")
                  (mkDisposition None (Some "automatic-action") (Some true) None None))
               (SUCCESS EXPLANATION) (Some n) false).
  set (l1 := recordFailure l0 (errorMessage error) (FAILED_DECRYPTION EXPLANATION)).
  destruct (newAS2Disposition_outgoing (localExplanation l1) (localNotification l1)
              (if returnNode options then Some (inl n) else None)
              (w ++ [CallDecrypt n enc])%list Htext) as (id & Hnew).
  rewrite <- app_assoc in Hnew. cbn [app] in Hnew.
  match type of Hnew with _ = (_, Return ?m) => set (mdn := m) in * end.
  assert (outgoingReport options w
          = ((w ++ [CallDecrypt n enc; GenerateMessageId])%list, Return mdn)) as Hrep.
  { unfold outgoingReport. rewrite Hnode. cbn [localNotification finalRecipient].
    rewrite Hheader. cbn [isNullOrUndefined]. rewrite <- Hheader. fold l0.
    rewrite (bind_return _ _ _ _ _
               (decryptStep_throw options l0 n enc error w Henc eq_refl Hdec)).
    fold l1. rewrite (bind_return _ _ _ _ _ (verifyStep_errored options l1 _ eq_refl)).
    exact Hnew. }
  destruct (toMimeNode_defined mdn _ eq_refl) as (mime & Hmime).
  pose proof (outgoing_finish _ _ _ _ Hrep) as Hout.
  rewrite (finishOutgoing_result _ _ _ _ Hmime) in Hout.
  assert (forall tail n' sgn',
            (forall e, In e tail -> forall a b, e <> CallVerify a b) ->
            In (CallVerify n' sgn') (w ++ tail)%list -> In (CallVerify n' sgn') w)
    as Hold.
  { intros tail n' sgn' Htail Hin. apply in_app_or in Hin as [Hin|Hin]; [assumption|].
    exfalso. exact (Htail _ Hin n' sgn' eq_refl). }
  exists mdn, (localNotification l1), mime.
  split; [exact Hrep|]. split; [reflexivity|]. split; [reflexivity|].
  split; [exact Hheader|]. split; [reflexivity|]. split; [reflexivity|].
  split; [exact Hmime|].
  destruct (signDisposition options) as [sgn|] eqn:Hsd.
  - rewrite <- app_assoc in Hout. cbn [app] in Hout.
    split; [exact Hout|]. rewrite Hout. cbn [fst].
    intros n' sgn'. apply Hold. intros e He a b.
    cbn in He. destruct He as [<-|[<-|[<-|[]]]]; discriminate.
  - split; [exact Hout|]. rewrite Hout. cbn [fst].
    intros n' sgn'. apply Hold. intros e He a b.
    cbn in He. destruct He as [<-|[<-|[]]]; discriminate.
Qed.

(** C2.  With [signed] given and no error from the decrypt step (no
    [encrypted] option, or a decrypt that returned [root]), a [verify]
    that throws is recorded with [explanation = FAILED_GENERALLY] and the
    error's message as description text; a [verify] that returns
    [undefined] is recorded with [explanation = FAILED_VERIFICATION] and
    the text ["Could not verify signature"].  In both cases
    [disposition.processed = false] and [description.type = "failure"],
    and [outgoing] goes on to serialise that report. *)
Theorem verification_failure_reported (options : OutgoingDispositionOptions)
    (n root : Node) (recipient : string) (sgn : VerificationOptions)
    (w : list Effect) :
  node options = Some n ->
  getHeader n "As2-To" = Some recipient ->
  signed options = Some sgn ->
  (encrypted options = None /\ root = n)
    \/ (exists enc, encrypted options = Some enc /\ decryptResult n enc = Return root) ->
  FAILED_GENERALLY EXPLANATION <> "" ->
  FAILED_VERIFICATION EXPLANATION <> "" ->
  let recorded (text explanationText : string) :=
    exists mdn literal w',
      outgoingReport options w = (w', Return mdn)
      /\ outgoing options w = finishOutgoing options mdn w'
      /\ explanation mdn = Some explanationText
      /\ notification mdn = Some (notificationOfLiteral literal Outgoing)
      /\ processed (disposition literal) = Some false
      /\ description (disposition literal)
         = Some {| descriptionType := "failure"; descriptionText := text |} in
  (forall error, verifyResult root sgn = Throw error ->
                 recorded (errorMessage error) (FAILED_GENERALLY EXPLANATION))
  /\ (verifyResult root sgn = Return None ->
      recorded "Could not verify signature" (FAILED_VERIFICATION EXPLANATION)).
Proof.
  intros Hnode Hheader Hsigned Hdecrypt Hgen Hver recorded.
  set (l0 := mkLocals
               (mkNotificationLiteral (getHeader n "As2-To")
                  (mkDisposition None (Some "automatic-action") (Some true) None None))
               (SUCCESS EXPLANATION) (Some n) false).
  assert (exists w1 l1,
            decryptStep options l0 w = (w1, Return l1)
            /\ rootNode l1 = Some root /\ errored l1 = false
            /\ localNotification l1 = localNotification l0)
    as (w1 & l1 & Hstep & Hroot & Herr & Hlit).
  { destruct Hdecrypt as [[Hnone ->] | (enc & Hsome & Hres)].
    - exists w, l0. rewrite (decryptStep_absent _ _ _ Hnone). repeat split.
    - eexists. eexists.
      rewrite (decryptStep_return _ l0 n enc root w Hsome eq_refl Hres).
      repeat split. }
  assert (forall l2 w2 text explanationText,
            verifyStep options l1 w1
            = (w2, Return (recordFailure l2 text explanationText)) ->
            localNotification l2 = localNotification l0 ->
            explanationText <> "" ->
            recorded text explanationText) as Hfinish.
  { intros l2 w2 text explanationText Hv Hl2 Hne.
    destruct (newAS2Disposition_outgoing
                (localExplanation (recordFailure l2 text explanationText))
                (localNotification (recordFailure l2 text explanationText))
                (if returnNode options then Some (inl n) else None) w2 Hne)
      as (id & Hnew).
    match type of Hnew with _ = ?r => assert (outgoingReport options w = r) as Hrep end.
    { unfold outgoingReport. rewrite Hnode. cbn [localNotification finalRecipient].
      rewrite Hheader. cbn [isNullOrUndefined]. rewrite <- Hheader. fold l0.
      rewrite (bind_return _ _ _ _ _ Hstep), (bind_return _ _ _ _ _ Hv).
      exact Hnew. }
    eexists. eexists. eexists. split; [exact Hrep|].
    split; [exact (outgoing_finish _ _ _ _ Hrep)|].
    repeat split. }
  split.
  - intros error Hthrow.
    apply (Hfinish l1 _ _ _ (verifyStep_throw _ _ _ _ _ _ Hsigned Herr Hroot Hthrow));
      assumption.
  - intros Hnone.
    apply (Hfinish (setRootNode l1 None) _ _ _
             (verifyStep_inconclusive _ _ _ _ _ Hsigned Herr Hroot Hnone));
      assumption.
Qed.

(** C6.  [incoming] with a node and verification options, when [verify]
    returns [undefined]: the call throws [ERROR.CONTENT_VERIFY] right
    after the [verify] call, and no report is constructed. *)
Theorem incoming_unverified_rejected (n : Node) (sgn : VerificationOptions)
    (w : list Effect) :
  verifyResult n sgn = Return None ->
  incoming (Some n) (Some sgn) w
  = ((w ++ [CallVerify n sgn])%list, Throw (Error (CONTENT_VERIFY ERROR))).
Proof.
  intros H. unfold incoming, bind, verify, perform. rewrite H. reflexivity.
Qed.

(** C9, amended.  Constructed from a node in whose tree [getReportNode]
    finds no report, the object has [messageId], [explanation],
    [notification] and [returned] all undefined, and nothing is thrown.
    Constructed from a plain options object, the constructor throws its
    argument error when [explanation] is missing or empty or
    [notification] is missing, and returns a report otherwise. *)
Theorem constructor_without_report (n : Node) (o : AS2DispositionOptions)
    (w : list Effect) :
  getReportNode n = None ->
  let lacking :=
    optExplanation o = None \/ optExplanation o = Some "" \/ optNotification o = None in
  newAS2Disposition (ArgNode n) w
  = (w, Return {| messageId := None; explanation := None;
                  notification := None; returned := None |})
  /\ (lacking -> newAS2Disposition (ArgOptions o) w = (w, Throw argumentError))
  /\ (~ lacking ->
      exists mdn,
        newAS2Disposition (ArgOptions o) w = ((w ++ [GenerateMessageId])%list, Return mdn)).
Proof.
  intros Hreport lacking. split; [|split].
  - unfold newAS2Disposition. rewrite Hreport. reflexivity.
  - unfold newAS2Disposition. intros [He | [He | Hn]].
    + rewrite He. reflexivity.
    + rewrite He. destruct (optNotification o); reflexivity.
    + rewrite Hn. destruct (optExplanation o); reflexivity.
  - intros Hnot. unfold newAS2Disposition.
    destruct (optExplanation o) as [text|] eqn:He; [|exfalso; apply Hnot; left; reflexivity].
    destruct (optNotification o) as [nt|] eqn:Hn;
      [|exfalso; apply Hnot; right; right; reflexivity].
    destruct (String.eqb_spec text "") as [->|_];
      [exfalso; apply Hnot; right; left; reflexivity|].
    unfold bind, generateMessageId, ret. eexists. reflexivity.
Qed.

End Pipelines.

(** ** The class on concrete messages *)

#[local] Existing Instance Sample.collaborators.

(** C9 as stated fails in its last part: the constructor also throws, a
    [TypeError], on a node whose report has a single part (the read of
    [childNodes[1].content]). *)
Lemma constructor_throws_on_truncated_report :
  ~ (forall (argument : ConstructorArgument) (w w' : list Effect) (e : JsError),
       newAS2Disposition argument w = (w', Throw e) ->
       exists o,
         argument = ArgOptions o
         /\ (optExplanation o = None \/ optExplanation o = Some ""
             \/ optNotification o = None)).
Proof.
  intros H.
  destruct (H (ArgNode (C := Sample.collaborators) Sample.truncatedReport) [] []
              (TypeError "Cannot read properties of undefined (reading 'content')")
              eq_refl) as (o & Ho & _).
  discriminate Ho.
Qed.

Example constructor_without_argument :
  newAS2Disposition (C := Sample.collaborators) ArgUndefined []
  = ([], Throw (TypeError "Cannot read properties of undefined (reading 'explanation')")).
Proof. reflexivity. Qed.

(** C1 as stated fails: a call whose decrypt step throws still throws
    when [signDisposition] is given and the final [sign] throws, since
    [sign] runs outside both [try] blocks. *)
Lemma decrypt_failure_then_sign_failure_throws :
  ~ (forall (options : OutgoingDispositionOptions (C := Sample.collaborators))
       (n : Sample.MimeTree) (recipient : string) (enc : Sample.Key) (error : JsError)
       (w : list (Effect (C := Sample.collaborators))),
       node options = Some n ->
       getHeader (Collaborators := Sample.collaborators) n "As2-To" = Some recipient ->
       encrypted options = Some enc ->
       decryptResult (Collaborators := Sample.collaborators) n enc = Throw error ->
       exists result w', outgoing options w = (w', Return result)).
Proof.
  intros H.
  destruct (H Sample.unsignable Sample.message "partner" Sample.WrongKey
              (Error "Unable to decrypt with the given key") []
              eq_refl eq_refl eq_refl eq_refl) as (result & w' & Hout).
  vm_compute in Hout. discriminate Hout.
Qed.

Example unsignable_outcome :
  snd (outgoing (C := Sample.collaborators) Sample.unsignable [])
  = Throw (Error "Unable to sign with the given key").
Proof. reflexivity. Qed.

Lemma outgoing_missing_input_throws_witness :
  (exists n, node Sample.unaddressed = Some n /\ getHeader n "As2-To" = None)
  /\ outgoing (C := Sample.collaborators) Sample.unaddressed []
     = ([], Throw (Error (FINAL_RECIPIENT_MISSING ERROR))).
Proof.
  assert (exists n, node Sample.unaddressed = Some n /\ getHeader n "As2-To" = None)
    as Hin by (exists Sample.anonymous; split; reflexivity).
  split; [exact Hin|].
  destruct (outgoing_missing_input_throws (C := Sample.collaborators)
              Sample.unaddressed [] (or_intror Hin))
    as (error & Hout & _ & Herr).
  rewrite Hout, Herr; [reflexivity | discriminate].
Defined.

Lemma decrypt_failure_reported_witness :
  decryptResult (Collaborators := Sample.collaborators) Sample.message Sample.WrongKey
    = Throw (Error "Unable to decrypt with the given key")
  /\ exists mdn result w',
       outgoingReport (C := Sample.collaborators) Sample.undecryptable []
         = ([CallDecrypt (C := Sample.collaborators) Sample.message Sample.WrongKey;
             GenerateMessageId], Return mdn)
       /\ explanation mdn = Some (FAILED_DECRYPTION EXPLANATION)
       /\ outgoing (C := Sample.collaborators) Sample.undecryptable [] = (w', Return result)
       /\ forall n' sgn, ~ In (CallVerify n' sgn) w'.
Proof.
  split; [reflexivity|].
  destruct (decrypt_failure_reported (C := Sample.collaborators)
              Sample.undecryptable Sample.message "partner"
              Sample.WrongKey (Error "Unable to decrypt with the given key") []
              eq_refl eq_refl eq_refl eq_refl ltac:(discriminate))
    as (mdn & literal & mime & Hrep & Hexp & _ & _ & _ & _ & _ & Hout & Hverify).
  exists mdn. eexists. eexists.
  split; [exact Hrep|]. split; [exact Hexp|].
  split; [rewrite Hout; reflexivity|].
  intros n' sgn Hin. rewrite Hout in Hverify. exact (Hverify n' sgn Hin).
Defined.

Lemma verification_failure_reported_witness :
  verifyResult (Collaborators := Sample.collaborators) Sample.message Sample.WrongKey
    = Return None
  /\ (exists mdn w',
        outgoingReport (C := Sample.collaborators) Sample.unverifiable [] = (w', Return mdn)
        /\ explanation mdn = Some (FAILED_VERIFICATION EXPLANATION))
  /\ (exists mdn w',
        outgoingReport (C := Sample.collaborators) Sample.malformedSignature []
          = (w', Return mdn)
        /\ explanation mdn = Some (FAILED_GENERALLY EXPLANATION)).
Proof.
  split; [reflexivity|]. split.
  - destruct (verification_failure_reported (C := Sample.collaborators)
                Sample.unverifiable Sample.message Sample.message "partner"
                Sample.WrongKey [])
      as [_ Hnone]; try reflexivity; try discriminate.
    + left. split; reflexivity.
    + destruct (Hnone eq_refl) as (mdn & literal & w' & Hrep & _ & Hexp & _).
      exists mdn, w'. split; assumption.
  - destruct (verification_failure_reported (C := Sample.collaborators)
                Sample.malformedSignature Sample.message
                (Sample.Mime [("Content-Type", "multipart/signed")] None [Sample.payload])
                "partner" Sample.BrokenKey [])
      as [Hthrow _]; try reflexivity; try discriminate.
    + right. exists Sample.RightKey. split; reflexivity.
    + destruct (Hthrow (Error "Malformed signature") eq_refl)
        as (mdn & literal & w' & Hrep & _ & Hexp & _).
      exists mdn, w'. split; assumption.
Defined.

Lemma incoming_unverified_rejected_witness :
  verifyResult (Collaborators := Sample.collaborators) Sample.message Sample.WrongKey = Return None
  /\ incoming (C := Sample.collaborators) (Some Sample.message) (Some Sample.WrongKey) []
     = ([CallVerify (C := Sample.collaborators) Sample.message Sample.WrongKey],
        Throw (Error (CONTENT_VERIFY ERROR))).
Proof.
  split; [reflexivity|].
  exact (incoming_unverified_rejected (C := Sample.collaborators)
           Sample.message Sample.WrongKey [] eq_refl).
Defined.

Lemma constructor_without_report_witness :
  getReportNode (Collaborators := Sample.collaborators) Sample.message = None
  /\ newAS2Disposition (C := Sample.collaborators)
       (ArgNode (C := Sample.collaborators) Sample.message) []
     = ([], Return {| messageId := None; explanation := None;
                      notification := None; returned := None |})
  /\ newAS2Disposition (C := Sample.collaborators)
       (ArgOptions (C := Sample.collaborators) Sample.noNotification) []
     = ([], Throw argumentError).
Proof.
  split; [reflexivity|].
  destruct (constructor_without_report (C := Sample.collaborators)
              Sample.message Sample.noNotification [] eq_refl)
    as (Hnode & Hlack & _).
  split; [exact Hnode|]. apply Hlack. right. right. reflexivity.
Defined.


(** ** The decoder on concrete fields *)

Lemma disposition_field_decoding_witness :
  toLowerCase "Disposition" = "disposition"
  /\ ~ contains "=" "failed/Failure"
  /\ startsWith (toLowerCase (trim "failed/Failure")) "failed" = true
  /\ dispositionPart
       {| dispValue := Some "MDN-sent-automatically"; dispType := Some "automatic-action";
          processed := None; description := None; attributes := None |}
       "failed/Failure=unsupported format"
     = {| dispValue := Some "MDN-sent-automatically"; dispType := Some "automatic-action";
          processed := Some false;
          description := Some {| descriptionType := "failure";
                                 descriptionText := "unsupported format" |};
          attributes := None |}.
Proof.
  assert (~ contains "=" "failed/Failure") as Hname.
  { unfold contains. cbn. intuition discriminate. }
  split; [reflexivity|]. split; [exact Hname|]. split; [reflexivity|].
  destruct (disposition_field_decoding "Disposition"
              "automatic-action/MDN-sent-automatically; failed/Failure=unsupported format"
              {| dispValue := Some "MDN-sent-automatically";
                 dispType := Some "automatic-action";
                 processed := None; description := None; attributes := None |}
              "failed/Failure" "unsupported format" eq_refl Hname (or_intror eq_refl))
    as (_ & _ & Hpair & _).
  exact Hpair.
Defined.

Lemma received_content_mic_decoding_witness :
  toLowerCase "Received-Content-MIC" = "received-content-mic"
  /\ contains "," "abcdef0123==, sha1"
  /\ exists first second,
       toNotification "Received-Content-MIC" "abcdef0123==, sha1"
       = Return ("receivedContentMic", FMic (trim first) (toLowerCase (trim second))).
Proof.
  assert (contains "," "abcdef0123==, sha1") as Hcomma.
  { unfold contains. cbn. tauto. }
  split; [reflexivity|]. split; [exact Hcomma|].
  destruct (received_content_mic_decoding "Received-Content-MIC" "abcdef0123==, sha1" eq_refl)
    as [Hsome _].
  destruct (Hsome Hcomma) as (first & second & rest & _ & _ & _ & _ & Hdec).
  exists first, second. exact Hdec.
Defined.

Lemma unrecognised_field_kept_under_given_name_witness :
  recognised "X-Custom-Header" = false
  /\ toNotification "X-Custom-Header" "abc"
     = Return ("headers", FHeaders {[ "X-Custom-Header" := "abc" ]}).
Proof.
  split; [reflexivity|].
  apply unrecognised_field_kept_under_given_name; [reflexivity | discriminate].
Defined.

(** ** More of the decoder *)

Section DecoderExtras.

Lemma dispositionPart_unfold result part :
  dispositionPart result part
  = recordModifier result (modifierKey part) (modifierValue part).
Proof. reflexivity. Qed.

Lemma recordModifier_status_frame result key value :
  isStatusKey key = true ->
  attributes (recordModifier result key value) = attributes result
  /\ processed (recordModifier result key value)
     = Some (bool_decide (split "/" key !! 0%nat = Some "processed"))
  /\ description (recordModifier result key value)
     = match split "/" key !! 1%nat with
       | Some suffix => Some (mkDescription (toLowerCase suffix) value)
       | None => description result
       end.
Proof.
  unfold isStatusKey, recordModifier. intros ->.
  destruct (split "/" key !! 1%nat); repeat split; reflexivity.
Qed.

Lemma recordModifier_attribute_frame result key value :
  isStatusKey key = false ->
  processed (recordModifier result key value) = processed result
  /\ description (recordModifier result key value) = description result
  /\ attributes (recordModifier result key value) <> None.
Proof.
  unfold isStatusKey, recordModifier. intros ->. repeat split. discriminate.
Qed.

Lemma fold_attribute_modifiers parts result :
  Forall (fun part => isStatusKey (modifierKey part) = false) parts ->
  processed (fold_left dispositionPart parts result) = processed result
  /\ description (fold_left dispositionPart parts result) = description result.
Proof.
  intros Hall. revert result.
  induction Hall as [|part parts Hpart _ IH]; intros result; simpl; [tauto|].
  destruct (IH (dispositionPart result part)) as [-> ->].
  rewrite dispositionPart_unfold.
  destruct (recordModifier_attribute_frame result _ (modifierValue part) Hpart)
    as (Hp & Hd & _).
  tauto.
Qed.

Lemma decode_parts key value :
  toLowerCase key = "disposition" ->
  exists first modifiers,
    map trim (split ";" value) = first :: modifiers
    /\ toNotification key value
       = Return ("disposition",
                 FDisposition
                   (fold_left dispositionPart modifiers
                      {| dispValue := split "/" first !! 1%nat;
                         dispType := split "/" first !! 0%nat;
                         processed := None; description := None;
                         attributes := None |})).
Proof.
  intros Hkey. rewrite (toNotification_disposition_case _ _ Hkey).
  unfold decodeDisposition.
  destruct (split_nonempty ";" value) as (p & ps & ->).
  exists (trim p), (map trim ps). split; reflexivity.
Qed.

(** X1.  A Disposition field whose modifiers are all of the attribute kind (in
    particular one with no modifier at all) leaves [processed] and
    [description] undefined: it is read neither as processed nor as
    failed. *)
Theorem disposition_without_status_modifier (key value : string) :
  toLowerCase key = "disposition" ->
  Forall (fun part => isStatusKey (modifierKey part) = false)
    (skipn 1 (map trim (split ";" value))) ->
  exists d,
    toNotification key value = Return ("disposition", FDisposition d)
    /\ processed d = None
    /\ description d = None.
Proof.
  intros Hkey Hall.
  destruct (decode_parts key value Hkey) as (first & modifiers & Hparts & Hdec).
  rewrite Hparts in Hall. simpl in Hall.
  eexists. split; [exact Hdec|].
  destruct (fold_attribute_modifiers modifiers
              {| dispValue := split "/" first !! 1%nat;
                 dispType := split "/" first !! 0%nat;
                 processed := None; description := None; attributes := None |} Hall)
    as [-> ->].
  split; reflexivity.
Qed.

(** X2.  The last [processed...]/[failed...] modifier decides [processed]:
    modifiers of the attribute kind after it change nothing, and earlier
    status modifiers are overwritten.  The [description] is that modifier's
    own when its key has a second [/]-piece; otherwise the description left
    by the modifiers before it stays, so [processed = true] can stand next
    to an earlier failure description. *)
Theorem last_status_modifier_decides
    (before after : list string) (part : string) (result : Disposition) :
  isStatusKey (modifierKey part) = true ->
  Forall (fun later => isStatusKey (modifierKey later) = false) after ->
  let d := fold_left dispositionPart (before ++ part :: after) result in
  processed d
  = Some (bool_decide (split "/" (modifierKey part) !! 0%nat = Some "processed"))
  /\ description d
     = match split "/" (modifierKey part) !! 1%nat with
       | Some suffix => Some (mkDescription (toLowerCase suffix) (modifierValue part))
       | None => description (fold_left dispositionPart before result)
       end.
Proof.
  intros Hstatus Hafter d. subst d.
  rewrite fold_left_app. simpl.
  destruct (fold_attribute_modifiers after
              (dispositionPart (fold_left dispositionPart before result) part) Hafter)
    as [-> ->].
  rewrite dispositionPart_unfold.
  destruct (recordModifier_status_frame (fold_left dispositionPart before result)
              _ (modifierValue part) Hstatus) as (_ & Hp & Hd).
  split; assumption.
Qed.

Lemma append_cons c a b : String c a +:+ b = String c (a +:+ b).
Proof. reflexivity. Qed.

Lemma startsWith_prefix s prefix :
  startsWith s prefix = true -> exists rest, s = prefix +:+ rest.
Proof.
  revert s. induction prefix as [|p prefix IH]; intros s H.
  - exists s. reflexivity.
  - destruct s as [|c s]; [discriminate|]. simpl in H.
    apply andb_prop in H as [Hc Hs]. apply Ascii.eqb_eq in Hc. subst c.
    destruct (IH s Hs) as (rest & ->). exists rest. reflexivity.
Qed.

Lemma startsWith_app prefix rest : startsWith (prefix +:+ rest) prefix = true.
Proof.
  induction prefix as [|p prefix IH]; [destruct rest; reflexivity|].
  rewrite append_cons. simpl. rewrite Ascii.eqb_refl. exact IH.
Qed.

Lemma split_head_longer sep a c r :
  ~ contains sep a -> c <> sep ->
  exists p ps, split sep (a +:+ String c r) = (a +:+ String c p) :: ps.
Proof.
  intros Ha Hc. induction a as [|d a IH].
  - change (EmptyString +:+ String c r) with (String c r). simpl.
    destruct (Ascii.eqb_spec c sep) as [->|_]; [contradiction|].
    destruct (split_nonempty sep r) as (p & ps & ->). exists p, ps. reflexivity.
  - rewrite contains_cons in Ha. rewrite append_cons. simpl.
    destruct (Ascii.eqb_spec d sep) as [->|_]; [tauto|].
    destruct IH as (p & ps & ->); [tauto|]. exists p, ps. reflexivity.
Qed.

Lemma append_inv_empty a b : a +:+ b = a -> b = EmptyString.
Proof.
  induction a as [|c a IH]; [trivial|]. rewrite append_cons. intros [= H]. auto.
Qed.

(** X3.  A status modifier whose key starts with [processed] counts as
    processed exactly when the key is [processed] itself or continues with
    a [/]: [processed/warning] is processed, while any other continuation
    ([processedx], [processed-late]) is recorded as [processed = false]. *)
Theorem processed_prefix_status (result : Disposition) (key value : string) :
  startsWith key "processed" = true ->
  processed (recordModifier result key value)
  = Some (String.eqb key "processed" || startsWith key "processed/").
Proof.
  intros Hp.
  assert (isStatusKey key = true) as Hs by (unfold isStatusKey; now rewrite Hp).
  destruct (recordModifier_status_frame result key value Hs) as (_ & -> & _).
  f_equal.
  destruct (startsWith_prefix _ _ Hp) as (rest & ->).
  assert (~ contains "/" "processed") as Hno.
  { unfold contains. cbn. intuition discriminate. }
  destruct rest as [|c rest].
  - rewrite append_empty_r. reflexivity.
  - destruct (Ascii.eqb_spec c "/") as [->|Hc].
    + rewrite (split_app _ _ _ Hno).
      rewrite bool_decide_eq_true_2 by reflexivity.
      change ("processed" +:+ String "/" rest) with ("processed/" +:+ rest).
      rewrite startsWith_app, orb_true_r. reflexivity.
    + destruct (split_head_longer "/" "processed" c rest Hno Hc) as (p & ps & ->).
      rewrite bool_decide_eq_false_2.
      * symmetry. apply orb_false_intro.
        -- apply String.eqb_neq. intros H. apply append_inv_empty in H. discriminate.
        -- rewrite !append_cons. change (EmptyString +:+ String c rest) with (String c rest).
           simpl. apply andb_false_intro1, Ascii.eqb_neq, Hc.
      * simpl. intros H. injection H as H. discriminate H.
Qed.

Lemma charToLower_idempotent c : charToLower (charToLower c) = charToLower c.
Proof. destruct c as [[] [] [] [] [] [] [] []]; reflexivity. Qed.

Lemma toLowerCase_idempotent s : toLowerCase (toLowerCase s) = toLowerCase s.
Proof.
  induction s as [|c s IH]; simpl; [reflexivity|].
  now rewrite charToLower_idempotent, IH.
Qed.

Lemma modifierKey_lower part : toLowerCase (modifierKey part) = modifierKey part.
Proof. unfold modifierKey. apply toLowerCase_idempotent. Qed.

Lemma toNotification_disposition_inv key value k d :
  toNotification key value = Return (k, FDisposition d) ->
  d = decodeDisposition (map trim (split ";" value)).
Proof.
  unfold toNotification.
  repeat match goal with
         | |- context [if ?b then _ else _] => destruct b
         end;
    try discriminate.
  - now intros [= _ <-].
  - destruct (map trim (split "," value) !! 1%nat); discriminate.
Qed.

Lemma recordModifier_entries result key value :
  toLowerCase key = key ->
  (forall name v, ownAttributes result !! name = Some v -> attributeEntryOk name v) ->
  forall name v,
    ownAttributes (recordModifier result key value) !! name = Some v ->
    attributeEntryOk name v.
Proof.
  intros Hlower Hinv name v. unfold recordModifier. fold (isStatusKey key).
  destruct (isStatusKey key) eqn:Hstatus.
  - destruct (split "/" key !! 1%nat); apply Hinv.
  - fold (ownAttributes result). unfold ownAttributes at 1. simpl.
    unfold readsUndefined.
    destruct (ownAttributes result !! key) eqn:Hown; [apply Hinv|].
    destruct (inherited key) eqn:Hin; simpl; [apply Hinv|].
    destruct (decide (key = name)) as [<-|Hne].
    + rewrite lookup_insert_eq. intros [= <-].
      repeat split; try assumption. apply orTrue_not_empty.
    + rewrite lookup_insert_ne by assumption. apply Hinv.
Qed.

Lemma fold_dispositionPart_entries parts result :
  (forall name v, ownAttributes result !! name = Some v -> attributeEntryOk name v) ->
  forall name v,
    ownAttributes (fold_left dispositionPart parts result) !! name = Some v ->
    attributeEntryOk name v.
Proof.
  revert result. induction parts as [|part parts IH]; intros result Hinv; simpl.
  - exact Hinv.
  - apply IH. rewrite dispositionPart_unfold.
    apply recordModifier_entries; [apply modifierKey_lower | exact Hinv].
Qed.

(** X4.  Every attribute a decoded Disposition field carries has a lower-case
    name that starts with neither [processed] nor [failed] and is not a
    property name of [Object.prototype], and a value that is [true] or a
    non-empty string. *)
Theorem decoded_attributes_well_formed
    (key value k : string) (d : Disposition) (name : string) (v : AttributeValue) :
  toNotification key value = Return (k, FDisposition d) ->
  ownAttributes d !! name = Some v ->
  isStatusKey name = false
  /\ inherited name = false
  /\ toLowerCase name = name
  /\ v <> AttrText "".
Proof.
  intros Hdec Hget. apply toNotification_disposition_inv in Hdec. subst d.
  unfold decodeDisposition in Hget.
  refine (fold_dispositionPart_entries _ _ _ name v Hget).
  intros name' v' H. unfold ownAttributes in H. simpl in H.
  rewrite lookup_empty in H. discriminate.
Qed.

Lemma fold_dispositionPart_attributes parts result :
  attributes (fold_left dispositionPart parts result) = None
  <-> attributes result = None
      /\ Forall (fun part => isStatusKey (modifierKey part) = true) parts.
Proof.
  revert result. induction parts as [|part parts IH]; intros result; simpl.
  - split; [intros H; split; [exact H | constructor] | tauto].
  - rewrite IH, dispositionPart_unfold.
    destruct (isStatusKey (modifierKey part)) eqn:Hs.
    + destruct (recordModifier_status_frame result _ (modifierValue part) Hs) as (-> & _).
      split.
      * intros [H1 H2]. split; [exact H1 | constructor; assumption].
      * intros [H1 H2]. inversion H2; subst. tauto.
    + destruct (recordModifier_attribute_frame result _ (modifierValue part) Hs)
        as (_ & _ & Hne).
      split.
      * intros [H1 _]. contradiction.
      * intros [_ H2]. inversion H2; subst. congruence.
Qed.

(** X5.  The [attributes] object exists as soon as one modifier is of the
    attribute kind, even if nothing was stored in it; it is undefined
    exactly when every modifier is a [processed...]/[failed...] one. *)
Theorem attributes_defined_iff_attribute_modifier (key value : string) :
  toLowerCase key = "disposition" ->
  exists d,
    toNotification key value = Return ("disposition", FDisposition d)
    /\ (attributes d = None
        <-> Forall (fun part => isStatusKey (modifierKey part) = true)
              (skipn 1 (map trim (split ";" value)))).
Proof.
  intros Hkey.
  destruct (decode_parts key value Hkey) as (first & modifiers & Hparts & Hdec).
  eexists. split; [exact Hdec|].
  rewrite Hparts, fold_dispositionPart_attributes. simpl. tauto.
Qed.

Lemma split_trailing sep s :
  split sep (s +:+ String sep EmptyString) = (split sep s ++ [EmptyString])%list.
Proof.
  induction s as [|c s IH].
  - change (EmptyString +:+ String sep EmptyString) with (String sep EmptyString).
    simpl. rewrite Ascii.eqb_refl. reflexivity.
  - rewrite append_cons. simpl. rewrite IH.
    destruct (Ascii.eqb c sep); [reflexivity|].
    destruct (split_nonempty sep s) as (p & ps & ->). reflexivity.
Qed.

(** X6.  A trailing semicolon is an empty modifier: it makes [attributes] an
    object that has an entry under the empty name. *)
Theorem trailing_semicolon_stores_empty_name (key value : string) :
  toLowerCase key = "disposition" ->
  exists d,
    toNotification key (value +:+ ";") = Return ("disposition", FDisposition d)
    /\ attributes d <> None
    /\ is_Some (ownAttributes d !! "").
Proof.
  intros Hkey. rewrite (toNotification_disposition_case _ _ Hkey).
  eexists. split; [reflexivity|].
  unfold decodeDisposition.
  change (value +:+ ";") with (value +:+ String ";" EmptyString).
  rewrite split_trailing, map_app.
  destruct (split_nonempty ";" value) as (p & ps & ->).
  cbn [map app skipn]. rewrite drop_0, fold_left_app. cbn [fold_left].
  match goal with |- context [dispositionPart ?r _] => generalize r end.
  intros r. change (trim "") with "". rewrite dispositionPart_unfold.
  change (modifierKey "") with "". change (modifierValue "") with "".
  rewrite recordModifier_attribute by reflexivity.
  split; [discriminate|].
  unfold ownAttributes at 1. cbn [attributes default].
  unfold readsUndefined.
  destruct (ownAttributes r !! "") eqn:Hown; unfold id.
  - rewrite Hown. eauto.
  - cbn. rewrite lookup_insert_eq. eauto.
Qed.

Lemma split_two sep s :
  contains sep s -> exists a b rest, split sep s = a :: b :: rest.
Proof.
  intros Hc. destruct (contains_decompose _ _ Hc) as (a & tail & -> & Ha).
  rewrite (split_app _ _ _ Ha).
  destruct (split_nonempty sep tail) as (b & rest & ->). eauto.
Qed.

(** X7.  The decoder throws in one situation only: a Received-Content-MIC
    field whose value has no comma.  Every other field name and value
    decodes. *)
Theorem toNotification_throws_iff (key value : string) :
  (exists e, toNotification key value = Throw e)
  <-> toLowerCase key = "received-content-mic" /\ ~ contains "," value.
Proof.
  split.
  - intros (e & H). unfold toNotification in H.
    destruct (existsb _ _) in H; [discriminate|].
    destruct (existsb _ _) in H; [discriminate|].
    destruct (String.eqb _ "disposition") in H; [discriminate|].
    destruct (String.eqb_spec (toLowerCase key) "received-content-mic") as [Hk|_];
      [|discriminate].
    split; [exact Hk|]. intros Hc.
    destruct (split_two _ _ Hc) as (a & b & rest & Hs). rewrite Hs in H.
    discriminate.
  - intros [Hk Hn]. rewrite (toNotification_mic_case _ _ Hk), (split_absent _ _ Hn).
    eexists. reflexivity.
Qed.

(** X8.  Recognised field names are matched without regard to case: two names
    that lower-case to the same recognised name decode every value to the
    same pair, canonical key included. *)
Theorem recognised_field_case_insensitive (key1 key2 value : string) :
  toLowerCase key1 = toLowerCase key2 ->
  recognised key1 = true ->
  toNotification key1 value = toNotification key2 value.
Proof.
  unfold recognised, toNotification, newKey. intros -> Hrec.
  cbn [existsb] in *.
  repeat match goal with
         | |- context [String.eqb ?a ?b] => destruct (String.eqb a b)
         end;
    try reflexivity; discriminate Hrec.
Qed.

(** X9.  The canonical key tells the shape of the value: a string under
    [reportingUa], [mdnGateway] and [originalMessageId]; a type and value
    under the two recipient keys; the disposition record under
    [disposition]; mic and algorithm under [receivedContentMic]; a bucket
    under [headers].  No other key is ever returned. *)
Theorem decoded_key_matches_value (key value k : string) (r : FieldValue) :
  toNotification key value = Return (k, r) ->
  match r with
  | FText _ => k = "reportingUa" \/ k = "mdnGateway" \/ k = "originalMessageId"
  | FRecipient _ _ => k = "originalRecipient" \/ k = "finalRecipient"
  | FDisposition _ => k = "disposition"
  | FMic _ _ => k = "receivedContentMic"
  | FHeaders _ => k = "headers"
  end.
Proof.
  unfold toNotification, newKey. cbn [existsb].
  generalize (toLowerCase key). intros lower.
  destruct (String.eqb_spec lower "reporting-ua") as [->|_];
    [intros [= <- <-]; tauto|].
  destruct (String.eqb_spec lower "mdn-gateway") as [->|_];
    [intros [= <- <-]; tauto|].
  destruct (String.eqb_spec lower "original-message-id") as [->|_];
    [intros [= <- <-]; tauto|].
  destruct (String.eqb_spec lower "original-recipient") as [->|_];
    [intros [= <- <-]; tauto|].
  destruct (String.eqb_spec lower "final-recipient") as [->|_];
    [intros [= <- <-]; tauto|].
  destruct (String.eqb_spec lower "disposition") as [->|_];
    [intros [= <- <-]; reflexivity|].
  destruct (String.eqb_spec lower "received-content-mic") as [->|_].
  - destruct (map trim (split "," value) !! 1%nat); [|discriminate].
    intros [= <- <-]. reflexivity.
  - cbn. intros [= <- <-]. reflexivity.
Qed.

Lemma trim_leading_space s : trim (String " " s) = trim s.
Proof. reflexivity. Qed.

Lemma join_cons sep x y l : join sep (x :: y :: l) = x +:+ sep +:+ join sep (y :: l).
Proof. reflexivity. Qed.

Lemma split_leading c sep s p ps :
  c <> sep -> split sep s = p :: ps -> split sep (String c s) = String c p :: ps.
Proof.
  intros Hc Hs. simpl. destruct (Ascii.eqb_spec c sep); [contradiction|].
  rewrite Hs. reflexivity.
Qed.

Lemma split_join_semicolon first rest :
  Forall (fun s => ~ contains ";" s) (first :: rest) ->
  split ";" (join "; " (first :: rest)) = first :: map (String " ") rest.
Proof.
  revert first. induction rest as [|s rest IH]; intros first Hall.
  - inversion Hall; subst. apply split_absent. assumption.
  - inversion Hall as [|? ? Hfirst Hrest]; subst.
    rewrite join_cons.
    change (first +:+ "; " +:+ join "; " (s :: rest))
      with (first +:+ String ";" (String " " (join "; " (s :: rest)))).
    rewrite (split_app _ _ _ Hfirst).
    rewrite (split_leading " " ";" _ _ _ ltac:(discriminate) (IH s Hrest)).
    reflexivity.
Qed.

(** X10.  Decoding a recipient field splits what [type; part; part...] joins:
    for a type and parts that are trimmed and free of semicolons, the
    decoder returns the type and the parts joined again by ["; "].  A value
    with no semicolon is all type, with the empty string as value. *)
Theorem recipient_decoding (key type : string) (segments : list string) :
  toLowerCase key = "original-recipient" \/ toLowerCase key = "final-recipient" ->
  Forall (fun s => ~ contains ";" s /\ trim s = s) (type :: segments) ->
  toNotification key (join "; " (type :: segments))
  = Return (if String.eqb (toLowerCase key) "final-recipient"
            then "finalRecipient" else "originalRecipient",
            FRecipient (join "; " segments) type).
Proof.
  intros Hkey Hall.
  assert (Forall (fun s => ~ contains ";" s) (type :: segments)) as Hsemi.
  { eapply Forall_impl; [exact Hall|]. intros s [H _]. exact H. }
  assert (map trim (split ";" (join "; " (type :: segments))) = type :: segments)
    as Hparts.
  { rewrite (split_join_semicolon _ _ Hsemi). simpl map.
    inversion Hall as [|? ? [_ Htype] Hrest]; subst. rewrite Htype. f_equal.
    clear -Hrest. induction Hrest as [|s l [_ Hs] _ IH]; simpl; [reflexivity|].
    rewrite trim_leading_space, Hs, IH. reflexivity. }
  unfold toNotification, newKey. rewrite Hparts.
  destruct Hkey as [-> | ->]; reflexivity.
Qed.

End DecoderExtras.

(** ** More of the pipelines *)

Section PipelineExtras.

Context `{C : Collaborators}.

Lemma verifyStep_absent options l w :
  signed options = None -> verifyStep options l w = (w, Return l).
Proof. intros H. unfold verifyStep. rewrite H. reflexivity. Qed.

Lemma verifyStep_return options l n sgn inner w :
  signed options = Some sgn -> errored l = false -> rootNode l = Some n ->
  verifyResult n sgn = Return (Some inner) ->
  verifyStep options l w
  = ((w ++ [CallVerify n sgn])%list, Return (setRootNode l (Some inner))).
Proof.
  intros Hs He Hr Hv. unfold verifyStep, tryCatch, bind, verify, perform.
  rewrite Hs, He, Hr, Hv. reflexivity.
Qed.

(** The locals [outgoing] starts from. *)
Lemma outgoingReport_steps options n recipient w w1 l1 w2 l2 :
  node options = Some n ->
  getHeader n "As2-To" = Some recipient ->
  let l0 :=
    mkLocals
      (mkNotificationLiteral (Some recipient)
         (mkDisposition None (Some "automatic-action") (Some true) None None))
      (SUCCESS EXPLANATION) (Some n) false in
  decryptStep options l0 w = (w1, Return l1) ->
  verifyStep options l1 w1 = (w2, Return l2) ->
  localExplanation l2 <> "" ->
  exists id,
    outgoingReport options w
    = ((w2 ++ [GenerateMessageId])%list,
       Return {| messageId := Some id;
                 explanation := Some (localExplanation l2);
                 notification := Some (notificationOfLiteral (localNotification l2) Outgoing);
                 returned := if returnNode options then Some n else None |}).
Proof.
  intros Hnode Hheader l0 Hd Hv Hne.
  destruct (newAS2Disposition_outgoing (localExplanation l2) (localNotification l2)
              (if returnNode options then Some (inl n) else None) w2 Hne) as (id & Hnew).
  exists id. unfold outgoingReport. rewrite Hnode.
  cbn [localNotification finalRecipient]. rewrite Hheader. cbn [isNullOrUndefined].
  fold l0. rewrite (bind_return _ _ _ _ _ Hd), (bind_return _ _ _ _ _ Hv), Hnew.
  destruct (returnNode options); reflexivity.
Qed.

(** The two steps never throw; what they can do to the locals. *)
Lemma decryptStep_cases options l w :
  exists w1 l1,
    decryptStep options l w = (w1, Return l1)
    /\ ((errored l1 = errored l
         /\ localNotification l1 = localNotification l
         /\ localExplanation l1 = localExplanation l)
        \/ exists text,
            l1 = recordFailure l text (FAILED_DECRYPTION EXPLANATION)).
Proof.
  unfold decryptStep. destruct (encrypted options) as [enc|].
  - unfold tryCatch, bind, decrypt. destruct (rootNode l) as [n|].
    + unfold perform. destruct (decryptResult n enc) as [inner|e].
      * eexists. eexists. split; [reflexivity|]. left. repeat split.
      * eexists. eexists. split; [reflexivity|]. right. eauto.
    + eexists. eexists. split; [reflexivity|]. right. eauto.
  - eexists. eexists. split; [reflexivity|]. left. repeat split.
Qed.

Lemma verifyStep_cases options l w :
  exists w2 l2,
    verifyStep options l w = (w2, Return l2)
    /\ ((errored l2 = errored l
         /\ localNotification l2 = localNotification l
         /\ localExplanation l2 = localExplanation l)
        \/ (errored l = false
            /\ exists l' text explanationText,
                l2 = recordFailure l' text explanationText
                /\ localNotification l' = localNotification l
                /\ (explanationText = FAILED_GENERALLY EXPLANATION
                    \/ explanationText = FAILED_VERIFICATION EXPLANATION))).
Proof.
  unfold verifyStep. destruct (signed options) as [sgn|].
  2:{ eexists. eexists. split; [reflexivity|]. left. repeat split. }
  destruct (errored l) eqn:He; cbn [negb].
  { eexists. eexists. split; [reflexivity|]. left. repeat split. assumption. }
  unfold tryCatch, bind, verify. destruct (rootNode l) as [n|].
  - unfold perform. destruct (verifyResult n sgn) as [[inner|]|e].
    + eexists. eexists. split; [reflexivity|]. left. cbn. repeat split. assumption.
    + eexists. eexists. split; [unfold ret; cbn; rewrite He; reflexivity|].
      right. split; [reflexivity|]. eexists. eexists. eexists.
      split; [reflexivity|]. split; [reflexivity|]. right. reflexivity.
    + eexists. eexists. split; [unfold ret; cbn; rewrite andb_false_r; reflexivity|].
      right. split; [reflexivity|]. eexists. eexists. eexists.
      split; [reflexivity|]. split; [reflexivity|]. left. reflexivity.
  - eexists. eexists.
    split; [unfold throw, ret; cbn; rewrite andb_false_r; reflexivity|].
    right. split; [reflexivity|]. eexists. eexists. eexists.
    split; [reflexivity|]. split; [reflexivity|]. left. reflexivity.
Qed.

Lemma outgoingReport_shape options n recipient w :
  node options = Some n ->
  getHeader n "As2-To" = Some recipient ->
  SUCCESS EXPLANATION <> "" ->
  FAILED_DECRYPTION EXPLANATION <> "" ->
  FAILED_VERIFICATION EXPLANATION <> "" ->
  FAILED_GENERALLY EXPLANATION <> "" ->
  exists id text literal w',
    outgoingReport options w
    = (w', Return {| messageId := Some id;
                     explanation := Some text;
                     notification := Some (notificationOfLiteral literal Outgoing);
                     returned := if returnNode options then Some n else None |})
    /\ finalRecipient literal = Some recipient
    /\ ((text = SUCCESS EXPLANATION
         /\ disposition literal
            = mkDisposition None (Some "automatic-action") (Some true) None None)
        \/ ((text = FAILED_DECRYPTION EXPLANATION
             \/ text = FAILED_VERIFICATION EXPLANATION
             \/ text = FAILED_GENERALLY EXPLANATION)
            /\ exists reason,
                disposition literal
                = mkDisposition None (Some "automatic-action") (Some false)
                    (Some (mkDescription "failure" reason)) None)).
Proof.
  intros Hnode Hheader Hs Hd Hv Hg.
  set (l0 := mkLocals
               (mkNotificationLiteral (Some recipient)
                  (mkDisposition None (Some "automatic-action") (Some true) None None))
               (SUCCESS EXPLANATION) (Some n) false).
  destruct (decryptStep_cases options l0 w) as (w1 & l1 & Hstep1 & Hl1).
  destruct (verifyStep_cases options l1 w1) as (w2 & l2 & Hstep2 & Hl2).
  assert (finalRecipient (localNotification l2) = Some recipient
          /\ ((localExplanation l2 = SUCCESS EXPLANATION
               /\ disposition (localNotification l2)
                  = mkDisposition None (Some "automatic-action") (Some true) None None)
              \/ ((localExplanation l2 = FAILED_DECRYPTION EXPLANATION
                   \/ localExplanation l2 = FAILED_VERIFICATION EXPLANATION
                   \/ localExplanation l2 = FAILED_GENERALLY EXPLANATION)
                  /\ exists reason,
                      disposition (localNotification l2)
                      = mkDisposition None (Some "automatic-action") (Some false)
                          (Some (mkDescription "failure" reason)) None)))
    as (Hrecipient & Hshape).
  { destruct Hl1 as [(He1 & Hn1 & Hx1) | (text1 & ->)].
    - destruct Hl2 as [(He2 & Hn2 & Hx2) | (_ & l' & text2 & ex2 & -> & Hn' & Hex)].
      + rewrite Hn2, Hn1, Hx2, Hx1. split; [reflexivity|]. left. split; reflexivity.
      + cbn. rewrite Hn', Hn1. cbn. split; [reflexivity|]. right.
        split; [destruct Hex as [-> | ->]; tauto | eauto].
    - destruct Hl2 as [(He2 & Hn2 & Hx2) | (Hfalse & _)]; [|discriminate Hfalse].
      rewrite Hn2, Hx2. cbn. split; [reflexivity|]. right. split; [tauto | eauto]. }
  assert (localExplanation l2 <> "") as Hne.
  { destruct Hshape as [[-> _] | [[-> | [-> | ->]] _]]; assumption. }
  destruct (outgoingReport_steps options n recipient w w1 l1 w2 l2
              Hnode Hheader Hstep1 Hstep2 Hne) as (id & Hrep).
  exists id, (localExplanation l2), (localNotification l2). eexists.
  split; [exact Hrep|]. split; assumption.
Qed.

(** X11.  With a node and its [As2-To] header, [outgoing] always gets as far as
    a report, whatever [decrypt] and [verify] do (return, return
    [undefined] or throw).  The report names the recipient, returns the
    node that was passed in (never the decrypted one) when [returnNode] is
    set, has disposition type [automatic-action] without a [value] or
    attributes, and is either the success report ([SUCCESS],
    [processed = true], no description) or a failure report (one of the
    three failure explanations, [processed = false], a description of type
    [failure]); the two are never mixed. *)
Theorem outgoing_report_always_built (options : OutgoingDispositionOptions)
    (n : Node) (recipient : string) (w : list Effect) :
  node options = Some n ->
  getHeader n "As2-To" = Some recipient ->
  SUCCESS EXPLANATION <> "" ->
  FAILED_DECRYPTION EXPLANATION <> "" ->
  FAILED_VERIFICATION EXPLANATION <> "" ->
  FAILED_GENERALLY EXPLANATION <> "" ->
  exists mdn literal w',
    outgoingReport options w = (w', Return mdn)
    /\ is_Some (messageId mdn)
    /\ returned mdn = (if returnNode options then Some n else None)
    /\ notification mdn = Some (notificationOfLiteral literal Outgoing)
    /\ finalRecipient literal = Some recipient
    /\ ((explanation mdn = Some (SUCCESS EXPLANATION)
         /\ disposition literal
            = {| dispValue := None; dispType := Some "automatic-action";
                 processed := Some true; description := None; attributes := None |})
        \/ ((explanation mdn = Some (FAILED_DECRYPTION EXPLANATION)
             \/ explanation mdn = Some (FAILED_VERIFICATION EXPLANATION)
             \/ explanation mdn = Some (FAILED_GENERALLY EXPLANATION))
            /\ exists reason,
                disposition literal
                = {| dispValue := None; dispType := Some "automatic-action";
                     processed := Some false;
                     description :=
                       Some {| descriptionType := "failure"; descriptionText := reason |};
                     attributes := None |})).
Proof.
  intros Hnode Hheader Hs Hd Hv Hg.
  destruct (outgoingReport_shape options n recipient w Hnode Hheader Hs Hd Hv Hg)
    as (id & text & literal & w' & Hrep & Hrecipient & Hshape).
  eexists. exists literal, w'. split; [exact Hrep|]. cbn.
  split; [eauto|]. split; [reflexivity|]. split; [reflexivity|].
  split; [exact Hrecipient|].
  destruct Hshape as [[-> Hdisp] | [Hex Hdisp]].
  - left. split; [reflexivity | exact Hdisp].
  - right. split; [|exact Hdisp]. destruct Hex as [-> | [-> | ->]]; tauto.
Qed.

(** X12.  When nothing fails, the report is the success report, and the calls
    go out in this order: [decrypt] on the node (if [encrypted] is given),
    then [verify] on the node that [decrypt] returned (if [signed] is
    given), then one message identifier is drawn.  The node that [verify]
    returns is not used. *)
Theorem outgoing_success (options : OutgoingDispositionOptions)
    (n root : Node) (recipient : string) (w : list Effect) :
  node options = Some n ->
  getHeader n "As2-To" = Some recipient ->
  SUCCESS EXPLANATION <> "" ->
  (encrypted options = None /\ root = n)
    \/ (exists enc, encrypted options = Some enc /\ decryptResult n enc = Return root) ->
  signed options = None
    \/ (exists sgn inner,
          signed options = Some sgn /\ verifyResult root sgn = Return (Some inner)) ->
  exists id,
    outgoingReport options w
    = ((w ++ match encrypted options with
             | Some enc => [CallDecrypt n enc]
             | None => []
             end
          ++ match signed options with
             | Some sgn => [CallVerify root sgn]
             | None => []
             end
          ++ [GenerateMessageId])%list,
       Return
         {| messageId := Some id;
            explanation := Some (SUCCESS EXPLANATION);
            notification :=
              Some (notificationOfLiteral
                      {| finalRecipient := Some recipient;
                         disposition :=
                           {| dispValue := None; dispType := Some "automatic-action";
                              processed := Some true; description := None;
                              attributes := None |} |}
                      Outgoing);
            returned := if returnNode options then Some n else None |}).
Proof.
  intros Hnode Hheader Hs Hdecrypt Hverify.
  set (l0 := mkLocals
               (mkNotificationLiteral (Some recipient)
                  (mkDisposition None (Some "automatic-action") (Some true) None None))
               (SUCCESS EXPLANATION) (Some n) false).
  assert (decryptStep options l0 w
          = ((w ++ match encrypted options with
                   | Some enc => [CallDecrypt n enc]
                   | None => []
                   end)%list,
             Return (setRootNode l0 (Some root)))) as Hstep1.
  { destruct Hdecrypt as [[Hnone ->] | (enc & Hsome & Hres)].
    - rewrite (decryptStep_absent _ _ _ Hnone), Hnone, app_nil_r. reflexivity.
    - rewrite (decryptStep_return _ l0 n enc root w Hsome eq_refl Hres), Hsome.
      reflexivity. }
  set (l1 := setRootNode l0 (Some root)) in *.
  assert (exists l2,
            verifyStep options l1
              (w ++ match encrypted options with
                    | Some enc => [CallDecrypt n enc]
                    | None => []
                    end)%list
            = (((w ++ match encrypted options with
                      | Some enc => [CallDecrypt n enc]
                      | None => []
                      end)
                  ++ match signed options with
                     | Some sgn => [CallVerify root sgn]
                     | None => []
                     end)%list,
               Return l2)
            /\ localNotification l2 = localNotification l0
            /\ localExplanation l2 = SUCCESS EXPLANATION) as (l2 & Hstep2 & Hn2 & Hx2).
  { destruct Hverify as [Hnone | (sgn & inner & Hsome & Hres)].
    - exists l1. rewrite (verifyStep_absent _ _ _ Hnone), Hnone, app_nil_r.
      repeat split.
    - exists (setRootNode l1 (Some inner)).
      rewrite (verifyStep_return _ l1 root sgn inner _ Hsome eq_refl eq_refl Hres), Hsome.
      repeat split. }
  assert (localExplanation l2 <> "") as Hne by (rewrite Hx2; exact Hs).
  destruct (outgoingReport_steps options n recipient w _ l1 _ l2
              Hnode Hheader Hstep1 Hstep2 Hne) as (id & Hrep).
  exists id. rewrite Hrep, Hn2, Hx2, <- !app_assoc. reflexivity.
Qed.

(** X13.  What [outgoing] hands back is the serialised report itself when
    [signDisposition] is absent, and otherwise whatever [sign] yields for
    it: [sign] is called once, last, on the serialised report, and an
    error it throws is thrown by [outgoing] (it is not turned into a
    report, unlike a decrypt or verify error). *)
Theorem outgoing_returns_sign_outcome (options : OutgoingDispositionOptions)
    (n : Node) (recipient : string) (w : list Effect) :
  node options = Some n ->
  getHeader n "As2-To" = Some recipient ->
  SUCCESS EXPLANATION <> "" ->
  FAILED_DECRYPTION EXPLANATION <> "" ->
  FAILED_VERIFICATION EXPLANATION <> "" ->
  FAILED_GENERALLY EXPLANATION <> "" ->
  exists mdn mime w',
    outgoingReport options w = (w', Return mdn)
    /\ toMimeNode mdn = Return mime
    /\ outgoing options w
       = match signDisposition options with
         | Some sgn => ((w' ++ [CallSign mime sgn])%list, signResult mime sgn)
         | None => (w', Return mime)
         end.
Proof.
  intros Hnode Hheader Hs Hd Hv Hg.
  destruct (outgoingReport_shape options n recipient w Hnode Hheader Hs Hd Hv Hg)
    as (id & text & literal & w' & Hrep & _).
  match type of Hrep with _ = (_, Return ?m) => set (mdn := m) in * end.
  destruct (toMimeNode_defined mdn (notificationOfLiteral literal Outgoing) eq_refl)
    as (mime & Hmime).
  exists mdn, mime, w'. split; [exact Hrep|]. split; [exact Hmime|].
  rewrite (outgoing_finish _ _ _ _ Hrep). apply finishOutgoing_result, Hmime.
Qed.

(** What the node branch of the constructor returns, when it returns. *)
Lemma newAS2Disposition_node n w w' o :
  newAS2Disposition (ArgNode n) w = (w', o) ->
  w' = w
  /\ forall mdn, o = Return mdn ->
       (getReportNode n = None /\ mdn = mkAS2Disposition None None None None)
       \/ exists report text0 text1 parsed,
            getReportNode n = Some report
            /\ childContent report 0 = Return text0
            /\ childContent report 1 = Return text1
            /\ parseHeaderString text1 toNotification = Return parsed
            /\ mdn = mkAS2Disposition (nodeMessageId n) (Some (trim text0))
                       (Some (notificationOfHeaders parsed Incoming))
                       (childNodes report !! 2%nat).
Proof.
  unfold newAS2Disposition. destruct (getReportNode n) as [report|].
  - unfold bind, lift, ret.
    destruct (childContent report 0) as [text0|e0] eqn:H0;
      [|intros [= <- <-]; split; [reflexivity | discriminate]].
    destruct (childContent report 1) as [text1|e1] eqn:H1;
      [|intros [= <- <-]; split; [reflexivity | discriminate]].
    destruct (parseHeaderString text1 toNotification) as [parsed|e2] eqn:H2;
      [|intros [= <- <-]; split; [reflexivity | discriminate]].
    intros [= <- <-]. split; [reflexivity|]. intros mdn [= <-]. right.
    exists report, text0, text1, parsed. repeat split; assumption.
  - intros [= <- <-]. split; [reflexivity|]. intros mdn [= <-]. left. split; reflexivity.
Qed.

(** X14.  Where a report's message identifier comes from.  Built from options,
    a fresh identifier is drawn, once, and only when the constructor does
    not throw.  Built from a node, nothing is drawn: the identifier is the
    one of the node given to the constructor (not of the report part found
    inside it), or undefined when the node holds no report. *)
Theorem constructor_message_id (argument : ConstructorArgument)
    (w w' : list Effect) (o : outcome AS2Disposition) :
  newAS2Disposition argument w = (w', o) ->
  match argument, o with
  | ArgOptions _, Return mdn =>
      w' = (w ++ [GenerateMessageId])%list /\ is_Some (messageId mdn)
  | ArgNode n, Return mdn =>
      w' = w
      /\ messageId mdn
         = match getReportNode n with Some _ => nodeMessageId n | None => None end
  | _, Throw _ => w' = w
  | ArgUndefined, Return _ => False
  end.
Proof.
  destruct argument as [|n|opts]; intros H.
  - cbn in H. injection H as <- <-. reflexivity.
  - destruct (newAS2Disposition_node n w w' o H) as (-> & Hcases).
    destruct o as [mdn|e]; [|reflexivity]. split; [reflexivity|].
    destruct (Hcases mdn eq_refl)
      as [[-> ->] | (report & t0 & t1 & parsed & -> & _ & _ & _ & ->)]; reflexivity.
  - unfold newAS2Disposition in H.
    destruct (optExplanation opts) as [text|]; [|injection H as <- <-; reflexivity].
    destruct (optNotification opts) as [nt|]; [|injection H as <- <-; reflexivity].
    destruct (String.eqb text ""); [injection H as <- <-; reflexivity|].
    unfold bind, generateMessageId, ret in H. injection H as <- <-.
    split; [reflexivity | cbn; eauto].
Qed.

(** X15.  A report the constructor returns can be serialised by [toMimeNode]
    unless it was built from a node without a report: that one is returned
    without an error, and [toMimeNode] throws on it. *)
Theorem constructed_report_serialisable (argument : ConstructorArgument)
    (w w' : list Effect) (mdn : AS2Disposition) :
  newAS2Disposition argument w = (w', Return mdn) ->
  (exists e, toMimeNode mdn = Throw e)
  <-> exists n, argument = ArgNode n /\ getReportNode n = None.
Proof.
  intros H.
  assert (forall nt, notification mdn = Some nt ->
            ~ exists e, toMimeNode mdn = Throw e) as Hdefined.
  { intros nt Hnt (e & He). destruct (toMimeNode_defined mdn nt Hnt) as (mime & Hm).
    congruence. }
  destruct argument as [|n|opts].
  - discriminate H.
  - destruct (newAS2Disposition_node n w w' _ H) as (_ & Hcases).
    destruct (Hcases mdn eq_refl)
      as [[Hnone ->] | (report & t0 & t1 & parsed & Hsome & _ & _ & _ & ->)].
    + split; [eauto|]. intros _. eexists. reflexivity.
    + split.
      * intros Hthrow. exfalso. exact (Hdefined _ eq_refl Hthrow).
      * intros (n' & [= <-] & Hnone). congruence.
  - split.
    + intros Hthrow. exfalso. unfold newAS2Disposition in H.
      destruct (optExplanation opts) as [text|]; [|discriminate H].
      destruct (optNotification opts) as [nt|]; [|discriminate H].
      destruct (String.eqb text ""); [discriminate H|].
      unfold bind, generateMessageId, ret in H. injection H as _ <-.
      exact (Hdefined _ eq_refl Hthrow).
    + intros (n' & Hn' & _). discriminate Hn'.
Qed.

(** X16.  The only outside call [incoming] makes is one [verify], on the node it
    was given and only when [signed] is present: it never decrypts, signs
    or draws a message identifier, and without a node it calls nothing. *)
Theorem incoming_effects (node : option Node) (signed : option VerificationOptions)
    (w : list Effect) :
  fst (incoming node signed w)
  = (w ++ match node, signed with
          | Some n, Some sgn => [CallVerify n sgn]
          | _, _ => []
          end)%list.
Proof.
  destruct node as [n|]; [|cbn; now rewrite app_nil_r].
  destruct signed as [sgn|].
  - unfold incoming, bind, verify, perform.
    destruct (verifyResult n sgn) as [[inner|]|e]; try reflexivity.
    unfold ret.
    destruct (newAS2Disposition (ArgNode inner) (w ++ [CallVerify n sgn])%list)
      as [w' o] eqn:H.
    destruct (newAS2Disposition_node _ _ _ _ H) as (-> & _). reflexivity.
  - unfold incoming, bind, ret.
    destruct (newAS2Disposition (ArgNode n) w) as [w' o] eqn:H.
    destruct (newAS2Disposition_node _ _ _ _ H) as (-> & _).
    cbn. now rewrite app_nil_r.
Qed.

(** X17.  A report [incoming] returns was read from the verified content: with
    [signed], [verify] returned a node and the report's explanation,
    notification, returned part and message identifier are those of that
    inner node, not of the signed envelope passed in; without [signed]
    they are those of the node itself.  A node without a report gives the
    report with all fields undefined. *)
Theorem incoming_report_source (n : Node) (signed : option VerificationOptions)
    (w w' : list Effect) (mdn : AS2Disposition) :
  incoming (Some n) signed w = (w', Return mdn) ->
  exists source,
    match signed with
    | Some sgn => verifyResult n sgn = Return (Some source)
    | None => source = n
    end
    /\ ((getReportNode source = None /\ mdn = mkAS2Disposition None None None None)
        \/ exists report text0 text1 parsed,
             getReportNode source = Some report
             /\ childContent report 0 = Return text0
             /\ childContent report 1 = Return text1
             /\ parseHeaderString text1 toNotification = Return parsed
             /\ mdn = {| messageId := nodeMessageId source;
                         explanation := Some (trim text0);
                         notification := Some (notificationOfHeaders parsed Incoming);
                         returned := childNodes report !! 2%nat |}).
Proof.
  unfold incoming. destruct signed as [sgn|].
  - unfold bind at 1. unfold bind at 1. unfold verify, perform.
    destruct (verifyResult n sgn) as [[inner|]|e]; [|discriminate|discriminate].
    unfold ret at 1. intros H. exists inner. split; [reflexivity|].
    destruct (newAS2Disposition_node _ _ _ _ H) as (_ & Hcases). auto.
  - unfold bind, ret. intros H. exists n. split; [reflexivity|].
    destruct (newAS2Disposition_node _ _ _ _ H) as (_ & Hcases). auto.
Qed.

End PipelineExtras.

(** ** [normalizeLineBreaks] *)

Section LineBreaks.

Import TestHelpers.

Example normalizeLineBreaks_ex :
  normalizeLineBreaks
    (String "a" (String CR (String CR (String LF
       (String "b" (String "c" (String CR EmptyString)))))))
  = String "a" (String CR (String LF (String "b" (String "c" EmptyString)))).
Proof. reflexivity. Qed.

Example splitString_ex : splitString "a--b-c----" "--" = ["a"; "b-c"; ""; ""].
Proof. reflexivity. Qed.

Lemma append_assoc a b c : (a +:+ b) +:+ c = a +:+ (b +:+ c).
Proof.
  induction a as [|x a IH]; [reflexivity|].
  rewrite !append_cons, IH. reflexivity.
Qed.

Lemma startsWith_nil s : startsWith s EmptyString = true.
Proof. destruct s; reflexivity. Qed.

Lemma startsWith_LF_false s :
  ~ contains LF s -> forall b, startsWith (s +:+ String CR b) (String LF EmptyString) = false.
Proof.
  intros Hn b. destruct s as [|c s].
  - reflexivity.
  - rewrite append_cons. simpl. rewrite contains_cons in Hn.
    destruct (Ascii.eqb_spec c LF) as [->|_]; [tauto | reflexivity].
Qed.

Lemma splitFrom_line piece b :
  ~ contains LF piece ->
  splitFrom CRLF 0 (piece +:+ String CR (String LF b)) = piece :: splitFrom CRLF 0 b.
Proof.
  intros Hn. induction piece as [|c piece IH].
  - change (EmptyString +:+ String CR (String LF b)) with (String CR (String LF b)).
    cbn [splitFrom]. cbn [startsWith CRLF].
    rewrite !Ascii.eqb_refl, startsWith_nil. reflexivity.
  - rewrite contains_cons in Hn. rewrite append_cons.
    cbn [splitFrom]. cbn [startsWith CRLF].
    rewrite (startsWith_LF_false piece ltac:(tauto)), andb_false_r.
    rewrite IH by tauto. reflexivity.
Qed.

Lemma splitFrom_whole piece :
  ~ contains LF piece -> splitFrom CRLF 0 piece = [piece].
Proof.
  intros Hn. induction piece as [|c piece IH]; [reflexivity|].
  rewrite contains_cons in Hn. cbn [splitFrom]. cbn [startsWith CRLF].
  assert (startsWith piece (String LF EmptyString) = false) as ->.
  { destruct piece as [|d piece]; [reflexivity|]. simpl.
    rewrite contains_cons in Hn.
    destruct (Ascii.eqb_spec d LF) as [->|_]; [tauto | reflexivity]. }
  rewrite andb_false_r, IH by tauto. reflexivity.
Qed.

(** Splitting undoes joining, for pieces without a line feed. *)
Lemma splitString_join first rest :
  Forall (fun piece => ~ contains LF piece) (first :: rest) ->
  splitString (join CRLF (first :: rest)) CRLF = first :: rest.
Proof.
  unfold splitString. revert first. induction rest as [|next rest IH]; intros first Hall.
  - inversion Hall; subst. apply splitFrom_whole. assumption.
  - inversion Hall as [|? ? Hfirst Hrest]; subst. rewrite join_cons.
    change (first +:+ CRLF +:+ join CRLF (next :: rest))
      with (first +:+ String CR (String LF (join CRLF (next :: rest)))).
    rewrite (splitFrom_line _ _ Hfirst), (IH next Hrest). reflexivity.
Qed.

Lemma dropChars_suffix k s c t : dropChars k s = String c t -> contains c s.
Proof.
  revert s. induction k as [|k IH]; intros s H.
  - simpl in H. subst s. rewrite contains_cons. tauto.
  - destruct s as [|d s]; [discriminate|]. simpl in H.
    rewrite contains_cons. right. eauto.
Qed.

Lemma endsWith_contains s c : endsWith s (String c EmptyString) = true -> contains c s.
Proof.
  unfold endsWith. intros H. apply andb_prop in H as [_ H].
  apply String.eqb_eq in H. eapply dropChars_suffix, H.
Qed.

Lemma endsWith_snoc s c : endsWith (s +:+ String c EmptyString) (String c EmptyString) = true.
Proof.
  unfold endsWith. rewrite length_app. cbn [String.length].
  replace (String.length s + 1 - 1)%nat with (String.length s) by lia.
  rewrite dropChars_app, String.eqb_refl.
  replace (1 <=? String.length s + 1)%nat with true; [reflexivity|].
  symmetry. apply Nat.leb_le. lia.
Qed.

(** [line.substring(0, line.length - 1)] removes the last character. *)
Lemma substringRange_snoc s c :
  substringRange (s +:+ String c EmptyString) 0 (strlen (s +:+ String c EmptyString) - 1) = s.
Proof.
  unfold substringRange, strlen. rewrite length_app. cbn [String.length].
  rewrite Z.max_id, Z.min_l by lia.
  rewrite (Z.max_l _ 0) by lia. rewrite Z.min_l by lia.
  rewrite Z.min_l, Z.max_r by lia.
  replace (Z.to_nat _) with (String.length s) by lia.
  change (Z.to_nat 0) with 0%nat. cbn [dropChars]. apply takeChars_app.
Qed.

(** X18.  A text without a carriage return comes back unchanged. *)
Theorem normalizeLineBreaks_without_CR (input : string) :
  ~ contains CR input -> normalizeLineBreaks input = input.
Proof.
  intros Hn.
  assert (forall k s, ~ contains CR s -> splitFrom CRLF k s = [dropChars k s]) as Hwhole.
  { clear. intros k s. revert k. induction s as [|c s IH]; intros k Hn.
    - destruct k; reflexivity.
    - rewrite contains_cons in Hn. destruct k as [|k].
      + cbn [splitFrom dropChars]. cbn [startsWith CRLF].
        destruct (Ascii.eqb_spec c CR) as [->|_]; [tauto|]. cbn [andb].
        rewrite (IH 0%nat) by tauto. reflexivity.
      + cbn [splitFrom dropChars]. apply IH. tauto. }
  unfold normalizeLineBreaks, splitString. rewrite (Hwhole 0%nat input Hn).
  cbn [dropChars lookup list_lookup default]. unfold id.
  destruct (endsWith input (String CR EmptyString)) eqn:He; [|reflexivity].
  exfalso. exact (Hn (endsWith_contains _ _ He)).
Qed.

Lemma normalizeLineBreaks_join first rest :
  Forall (fun piece => ~ contains LF piece) (first :: rest) ->
  endsWith first (String CR EmptyString) = true ->
  normalizeLineBreaks (join CRLF (first :: rest))
  = join CRLF (map (fun line => substringRange line 0 (strlen line - 1)) (first :: rest)).
Proof.
  intros Hall He. unfold normalizeLineBreaks. rewrite (splitString_join _ _ Hall).
  cbn [lookup list_lookup default]. unfold id. rewrite He. reflexivity.
Qed.

Lemma contains_snoc c s d :
  contains c (s +:+ String d EmptyString) <-> contains c s \/ d = c.
Proof.
  rewrite contains_app.
  assert (contains c (String d EmptyString) <-> d = c) as H
    by (unfold contains; simpl; tauto).
  tauto.
Qed.

(** X19.  Lines that each end in a stray carriage return before the line break
    (CR CR LF between lines, as some tools print on Windows) come back with
    plain CR LF line breaks; a final empty line after the last break is
    kept. *)
Theorem normalizeLineBreaks_double_CR (lines : list string) (trailing : bool) :
  Forall (fun line => ~ contains LF line) lines ->
  normalizeLineBreaks
    (join CRLF (map (fun line => line +:+ String CR EmptyString) lines
                  ++ (if trailing then [EmptyString] else []))%list)
  = join CRLF (lines ++ (if trailing then [EmptyString] else []))%list.
Proof.
  intros Hall. destruct lines as [|first rest].
  - destruct trailing; reflexivity.
  - cbn [map app]. rewrite normalizeLineBreaks_join.
    + cbn [map]. rewrite substringRange_snoc. f_equal. f_equal.
      rewrite map_app, map_map.
      f_equal.
      * clear. induction rest as [|l rest IH]; [reflexivity|].
        cbn [map]. rewrite substringRange_snoc, IH. reflexivity.
      * destruct trailing; reflexivity.
    + constructor.
      * inversion Hall; subst. rewrite contains_snoc. intros [H | H]; [tauto | discriminate H].
      * apply Forall_app. split.
        -- inversion Hall as [|? ? _ Hrest]; subst. clear -Hrest.
           induction Hrest as [|l rest Hl _ IH]; constructor; [|exact IH].
           rewrite contains_snoc. intros [H | H]; [tauto | discriminate H].
        -- destruct trailing; repeat constructor. intros [].
    + apply endsWith_snoc.
Qed.

(** X20.  Only the first line is looked at.  Once it ends in a carriage return,
    every line loses its last character, whatever that character is. *)
Theorem normalizeLineBreaks_drops_last_characters
    (first : string) (rest : list (string * ascii)) :
  ~ contains LF first ->
  Forall (fun line => ~ contains LF (fst line) /\ snd line <> LF) rest ->
  normalizeLineBreaks
    (join CRLF
       ((first +:+ String CR EmptyString)
          :: map (fun line => fst line +:+ String (snd line) EmptyString) rest))
  = join CRLF (first :: map fst rest).
Proof.
  intros Hfirst Hrest. rewrite normalizeLineBreaks_join.
  - cbn [map]. rewrite substringRange_snoc. f_equal. f_equal.
    rewrite map_map. clear.
    induction rest as [|[l c] rest IH]; [reflexivity|].
    cbn [map fst snd]. rewrite substringRange_snoc, IH. reflexivity.
  - constructor.
    + rewrite contains_snoc. intros [H | H]; [tauto | discriminate H].
    + clear -Hrest. induction Hrest as [|[l c] rest [Hl Hc] _ IH]; constructor; [|exact IH].
      cbn [fst snd] in *. rewrite contains_snoc. intros [H | H]; [tauto | congruence].
  - apply endsWith_snoc.
Qed.

End LineBreaks.

(** ** The further properties on concrete inputs *)

Lemma disposition_without_status_modifier_witness :
  toLowerCase "Disposition" = "disposition"
  /\ exists d,
       toNotification "Disposition" "manual-action/MDN-sent-manually; x-note=seen"
       = Return ("disposition", FDisposition d)
       /\ processed d = None /\ description d = None.
Proof.
  split; [reflexivity|].
  apply disposition_without_status_modifier; [reflexivity|].
  repeat constructor.
Defined.

Lemma last_status_modifier_decides_witness :
  isStatusKey (modifierKey "processed") = true
  /\ let d := fold_left dispositionPart (["failed/error=unreadable"] ++ "processed" :: ["x"])
                (mkDisposition None None None None None) in
     processed d = Some true
     /\ description d
        = Some {| descriptionType := "error"; descriptionText := "unreadable" |}.
Proof.
  split; [reflexivity|].
  exact (last_status_modifier_decides ["failed/error=unreadable"] ["x"] "processed"
           (mkDisposition None None None None None) eq_refl
           ltac:(repeat constructor)).
Defined.

Lemma processed_prefix_status_witness :
  startsWith "processed-late" "processed" = true
  /\ processed (recordModifier (mkDisposition None None None None None) "processed-late" "")
     = Some false.
Proof.
  split; [reflexivity|].
  exact (processed_prefix_status (mkDisposition None None None None None)
           "processed-late" "" eq_refl).
Defined.

Lemma decoded_attributes_well_formed_witness :
  exists d,
    toNotification "Disposition" "automatic-action/MDN-sent-automatically; X-Note=seen"
    = Return ("disposition", FDisposition d)
    /\ ownAttributes d !! "x-note" = Some (AttrText "seen")
    /\ inherited "x-note" = false.
Proof.
  eexists. split; [vm_compute; reflexivity|]. split; [vm_compute; reflexivity|].
  refine (proj1 (proj2 (decoded_attributes_well_formed "Disposition"
            "automatic-action/MDN-sent-automatically; X-Note=seen" "disposition" _
            "x-note" (AttrText "seen") _ _))); vm_compute; reflexivity.
Defined.

Lemma attributes_defined_iff_attribute_modifier_witness :
  toLowerCase "disposition" = "disposition"
  /\ exists d,
       toNotification "disposition" "automatic-action/MDN-sent-automatically; processed"
       = Return ("disposition", FDisposition d)
       /\ attributes d = None.
Proof.
  split; [reflexivity|].
  destruct (attributes_defined_iff_attribute_modifier "disposition"
              "automatic-action/MDN-sent-automatically; processed" eq_refl)
    as (d & Hdec & Hiff).
  exists d. split; [exact Hdec|]. apply Hiff. repeat constructor.
Defined.

Lemma trailing_semicolon_stores_empty_name_witness :
  toLowerCase "Disposition" = "disposition"
  /\ exists d,
       toNotification "Disposition" ("automatic-action/MDN-sent-automatically; processed" +:+ ";")
       = Return ("disposition", FDisposition d)
       /\ attributes d <> None
       /\ is_Some (ownAttributes d !! "").
Proof.
  split; [reflexivity|].
  exact (trailing_semicolon_stores_empty_name "Disposition"
           "automatic-action/MDN-sent-automatically; processed" eq_refl).
Defined.

Lemma recognised_field_case_insensitive_witness :
  toLowerCase "FINAL-RECIPIENT" = toLowerCase "Final-Recipient"
  /\ recognised "FINAL-RECIPIENT" = true
  /\ toNotification "FINAL-RECIPIENT" "rfc822; partner"
     = toNotification "Final-Recipient" "rfc822; partner".
Proof.
  split; [reflexivity|]. split; [reflexivity|].
  exact (recognised_field_case_insensitive "FINAL-RECIPIENT" "Final-Recipient"
           "rfc822; partner" eq_refl eq_refl).
Defined.

Lemma decoded_key_matches_value_witness :
  toNotification "MDN-Gateway" "smtp; gateway.example"
  = Return ("mdnGateway", FText "smtp; gateway.example")
  /\ ("mdnGateway" = "reportingUa" \/ "mdnGateway" = "mdnGateway"
      \/ "mdnGateway" = "originalMessageId").
Proof.
  split; [reflexivity|].
  exact (decoded_key_matches_value "MDN-Gateway" "smtp; gateway.example"
           "mdnGateway" (FText "smtp; gateway.example") eq_refl).
Defined.

Lemma recipient_decoding_witness :
  toLowerCase "Original-Recipient" = "original-recipient"
  /\ toNotification "Original-Recipient" "rfc822; partner; via relay"
     = Return ("originalRecipient", FRecipient "partner; via relay" "rfc822").
Proof.
  split; [reflexivity|].
  refine (recipient_decoding "Original-Recipient" "rfc822" ["partner"; "via relay"]
            (or_introl eq_refl) _).
  repeat constructor; try reflexivity; unfold contains; cbn; intuition discriminate.
Defined.

Lemma outgoing_report_always_built_witness :
  node (C := Sample.collaborators) Sample.malformedSignature = Some Sample.message
  /\ exists mdn w',
       outgoingReport (C := Sample.collaborators) Sample.malformedSignature []
       = (w', Return mdn)
       /\ returned mdn = Some Sample.message.
Proof.
  split; [reflexivity|].
  destruct (outgoing_report_always_built (C := Sample.collaborators)
              Sample.malformedSignature Sample.message "partner" [] eq_refl eq_refl
              ltac:(discriminate) ltac:(discriminate) ltac:(discriminate)
              ltac:(discriminate))
    as (mdn & literal & w' & Hrep & _ & Hret & _).
  exists mdn, w'. split; [exact Hrep | exact Hret].
Defined.

Lemma outgoing_success_witness :
  decryptResult (Collaborators := Sample.collaborators) Sample.message Sample.RightKey
  = Return (Sample.Mime [("Content-Type", "multipart/signed")] None [Sample.payload])
  /\ exists mdn,
       outgoingReport (C := Sample.collaborators) Sample.wellSigned []
       = ([CallDecrypt (C := Sample.collaborators) Sample.message Sample.RightKey;
           CallVerify (C := Sample.collaborators)
             (Sample.Mime [("Content-Type", "multipart/signed")] None [Sample.payload])
             Sample.RightKey;
           GenerateMessageId],
          Return mdn)
       /\ explanation mdn = Some (SUCCESS EXPLANATION).
Proof.
  split; [reflexivity|].
  destruct (outgoing_success (C := Sample.collaborators) Sample.wellSigned Sample.message
              (Sample.Mime [("Content-Type", "multipart/signed")] None [Sample.payload])
              "partner" []) as (id & Hrep); try reflexivity; try discriminate.
  - right. exists Sample.RightKey. split; reflexivity.
  - right. exists Sample.RightKey, Sample.payload. split; reflexivity.
  - eexists. split; [exact Hrep | reflexivity].
Defined.

Lemma outgoing_returns_sign_outcome_witness :
  signDisposition (C := Sample.collaborators) Sample.signingFails = Some Sample.BrokenKey
  /\ snd (outgoing (C := Sample.collaborators) Sample.signingFails [])
     = Throw (Error "Unable to sign with the given key").
Proof.
  split; [reflexivity|].
  destruct (outgoing_returns_sign_outcome (C := Sample.collaborators)
              Sample.signingFails Sample.message "partner" [] eq_refl eq_refl
              ltac:(discriminate) ltac:(discriminate) ltac:(discriminate)
              ltac:(discriminate))
    as (mdn & mime & w' & _ & _ & Hout).
  rewrite Hout. reflexivity.
Defined.

Lemma constructor_message_id_witness :
  exists w' mdn,
    newAS2Disposition (C := Sample.collaborators)
      (ArgNode (C := Sample.collaborators) Sample.signedReport) []
    = (w', Return mdn)
    /\ w' = []
    /\ messageId mdn = Some "<envelope@sample>".
Proof.
  eexists. eexists. split; [vm_compute; reflexivity|].
  exact (constructor_message_id (C := Sample.collaborators)
           (ArgNode (C := Sample.collaborators) Sample.signedReport) [] _ _ eq_refl).
Defined.

Lemma constructed_report_serialisable_witness :
  exists w' mdn,
    newAS2Disposition (C := Sample.collaborators)
      (ArgNode (C := Sample.collaborators) Sample.payload) []
    = (w', Return mdn)
    /\ exists e, toMimeNode mdn = Throw e.
Proof.
  eexists. eexists. split; [vm_compute; reflexivity|].
  apply (constructed_report_serialisable (C := Sample.collaborators)
           (ArgNode (C := Sample.collaborators) Sample.payload) [] [] _ eq_refl).
  exists Sample.payload. split; reflexivity.
Defined.

Lemma incoming_report_source_witness :
  exists w' mdn,
    incoming (C := Sample.collaborators) (Some Sample.signedReport) (Some Sample.RightKey) []
    = (w', Return mdn)
    /\ messageId mdn = Some "<report@sample>".
Proof.
  eexists. eexists. split; [vm_compute; reflexivity|].
  destruct (incoming_report_source (C := Sample.collaborators) Sample.signedReport
              (Some Sample.RightKey) [] _ _ eq_refl) as (source & Hsource & Hcases).
  injection Hsource as <-.
  destruct Hcases as [[Hnone _] | (r & t0 & t1 & parsed & _ & _ & _ & _ & Hmdn)].
  - discriminate Hnone.
  - reflexivity.
Defined.

Lemma normalizeLineBreaks_without_CR_witness :
  ~ contains TestHelpers.CR "ISA*00*"
  /\ TestHelpers.normalizeLineBreaks "ISA*00*" = "ISA*00*".
Proof.
  assert (~ contains TestHelpers.CR "ISA*00*") as Hn.
  { unfold contains. cbn. intuition discriminate. }
  split; [exact Hn|]. exact (normalizeLineBreaks_without_CR "ISA*00*" Hn).
Defined.

Lemma normalizeLineBreaks_double_CR_witness :
  Forall (fun line => ~ contains TestHelpers.LF line) ["Verification successful"; "ok"]
  /\ TestHelpers.normalizeLineBreaks
       (join TestHelpers.CRLF
          ["Verification successful" +:+ String TestHelpers.CR EmptyString;
           "ok" +:+ String TestHelpers.CR EmptyString; EmptyString])
     = join TestHelpers.CRLF ["Verification successful"; "ok"; EmptyString].
Proof.
  assert (Forall (fun line => ~ contains TestHelpers.LF line)
            ["Verification successful"; "ok"]) as Hall.
  { repeat constructor; unfold contains; cbn; intuition discriminate. }
  split; [exact Hall|].
  exact (normalizeLineBreaks_double_CR ["Verification successful"; "ok"] true Hall).
Defined.

Lemma normalizeLineBreaks_drops_last_characters_witness :
  ~ contains TestHelpers.LF "first"
  /\ TestHelpers.normalizeLineBreaks
       (join TestHelpers.CRLF ["first" +:+ String TestHelpers.CR EmptyString; "second"])
     = join TestHelpers.CRLF ["first"; "secon"].
Proof.
  assert (~ contains TestHelpers.LF "first") as Hfirst.
  { unfold contains. cbn. intuition discriminate. }
  split; [exact Hfirst|].
  refine (normalizeLineBreaks_drops_last_characters "first" [("secon", "d"%char)] Hfirst _).
  repeat constructor; [unfold contains; cbn; intuition discriminate | discriminate].
Defined.
